(** * curator: bucket sync jobs and RPM repository rebuilds

    A shallow embedding of [sthree/syncFromJob.go] and [repobuilder/rpm.go].
    Each Go package is a module.  A job is a record; the methods that mutate
    the receiver through its pointer are state transformers on a state that
    holds the job, the outside world and the trace of the calls the method
    makes (storage calls, filesystem calls, subprocesses and log lines). *)

From Stdlib Require Import ZArith List Ascii String DecimalString DecimalNat.
From stdpp Require Import gmap strings list.
Import ListNotations.
Local Open Scope string_scope.
Local Open Scope Z_scope.

(** ** Strings of the Go standard library *)

Definition quote_char : ascii := ascii_of_nat 34.
Definition newline : string := String (ascii_of_nat 10) EmptyString.
Definition dot : ascii := ascii_of_nat 46.
Definition slash : ascii := ascii_of_nat 47.

Fixpoint in_cutset (c : ascii) (cutset : string) : bool :=
  match cutset with
  | EmptyString => false
  | String k rest => if Ascii.eqb c k then true else in_cutset c rest
  end.

Fixpoint strings_TrimLeft (s cutset : string) : string :=
  match s with
  | EmptyString => EmptyString
  | String c rest => if in_cutset c cutset then strings_TrimLeft rest cutset else s
  end.

Fixpoint strings_TrimRight (s cutset : string) : string :=
  match s with
  | EmptyString => EmptyString
  | String c rest =>
      match strings_TrimRight rest cutset with
      | EmptyString => if in_cutset c cutset then EmptyString else String c EmptyString
      | kept => String c kept
      end
  end.

(** [strings.Trim]: all leading and trailing characters of the cutset go. *)
Definition strings_Trim (s cutset : string) : string :=
  strings_TrimRight (strings_TrimLeft s cutset) cutset.

(** [strings.Join] *)
Fixpoint strings_Join (elems : list string) (sep : string) : string :=
  match elems with
  | [] => EmptyString
  | [e] => e
  | e :: rest => e +:+ sep +:+ strings_Join rest sep
  end.

(** The verb d of [fmt.Sprintf] on a job number. *)
Definition Sprintf_d (n : nat) : string := NilEmpty.string_of_uint (Nat.to_uint n).

Definition hexdigit (n : Z) : ascii :=
  if n <? 10 then ascii_of_nat (Z.to_nat (48 + n)) else ascii_of_nat (Z.to_nat (87 + n)).

(** The verb x of [fmt.Sprintf] on a byte array: two lowercase digits a byte. *)
Fixpoint Sprintf_x (bs : list Z) : string :=
  match bs with
  | [] => EmptyString
  | b :: rest => String (hexdigit (b / 16)) (String (hexdigit (b mod 16)) (Sprintf_x rest))
  end.

(** A Go byte slice read from a file, as the bytes of the file's text. *)
Definition bytes_of_string (s : string) : list Z :=
  map (fun c => Z.of_nat (nat_of_ascii c)) (list_ascii_of_string s).

(** ** crypto/md5 (RFC 1321), on 32-bit words kept in [Z] *)

Module md5.

Local Open Scope list_scope.

Definition w32 (x : Z) : Z := x mod 2 ^ 32.
Definition not32 (x : Z) : Z := Z.lxor x (2 ^ 32 - 1).
Definition rotl32 (x c : Z) : Z :=
  w32 (Z.lor (Z.shiftl x c) (Z.shiftr x (32 - c))).

Definition shifts : list Z :=
  [7; 12; 17; 22; 7; 12; 17; 22; 7; 12; 17; 22; 7; 12; 17; 22;
   5;  9; 14; 20; 5;  9; 14; 20; 5;  9; 14; 20; 5;  9; 14; 20;
   4; 11; 16; 23; 4; 11; 16; 23; 4; 11; 16; 23; 4; 11; 16; 23;
   6; 10; 15; 21; 6; 10; 15; 21; 6; 10; 15; 21; 6; 10; 15; 21].

Definition sines : list Z :=
  [0xd76aa478; 0xe8c7b756; 0x242070db; 0xc1bdceee;
   0xf57c0faf; 0x4787c62a; 0xa8304613; 0xfd469501;
   0x698098d8; 0x8b44f7af; 0xffff5bb1; 0x895cd7be;
   0x6b901122; 0xfd987193; 0xa679438e; 0x49b40821;
   0xf61e2562; 0xc040b340; 0x265e5a51; 0xe9b6c7aa;
   0xd62f105d; 0x02441453; 0xd8a1e681; 0xe7d3fbc8;
   0x21e1cde6; 0xc33707d6; 0xf4d50d87; 0x455a14ed;
   0xa9e3e905; 0xfcefa3f8; 0x676f02d9; 0x8d2a4c8a;
   0xfffa3942; 0x8771f681; 0x6d9d6122; 0xfde5380c;
   0xa4beea44; 0x4bdecfa9; 0xf6bb4b60; 0xbebfbc70;
   0x289b7ec6; 0xeaa127fa; 0xd4ef3085; 0x04881d05;
   0xd9d4d039; 0xe6db99e5; 0x1fa27cf8; 0xc4ac5665;
   0xf4292244; 0x432aff97; 0xab9423a7; 0xfc93a039;
   0x655b59c3; 0x8f0ccc92; 0xffeff47d; 0x85845dd1;
   0x6fa87e4f; 0xfe2ce6e0; 0xa3014314; 0x4e0811a1;
   0xf7537e82; 0xbd3af235; 0x2ad7d2bb; 0xeb86d391].

Definition zth (l : list Z) (i : Z) : Z := nth (Z.to_nat i) l 0.

Definition word_le (bs : list Z) : Z :=
  zth bs 0 + 2 ^ 8 * zth bs 1 + 2 ^ 16 * zth bs 2 + 2 ^ 24 * zth bs 3.

Definition bytes_le (n : nat) (x : Z) : list Z :=
  map (fun k => Z.shiftr x (8 * Z.of_nat k) mod 2 ^ 8) (seq 0 n).

Fixpoint chunks {A} (fuel size : nat) (l : list A) : list (list A) :=
  match fuel with
  | O => []
  | S fuel' =>
      match l with
      | [] => []
      | _ => firstn size l :: chunks fuel' size (skipn size l)
      end
  end.

Definition padding (len : Z) : list Z :=
  0x80 :: repeat 0 (Z.to_nat ((55 - len) mod 64)) ++ bytes_le 8 ((8 * len) mod 2 ^ 64).

Definition digest : Type := Z * Z * Z * Z.

Definition round (m : list Z) (st : digest) (i : Z) : digest :=
  let '(a, b, c, d) := st in
  let '(f, g) :=
    if i <? 16 then (Z.lor (Z.land b c) (Z.land (not32 b) d), i)
    else if i <? 32 then (Z.lor (Z.land d b) (Z.land (not32 d) c), (5 * i + 1) mod 16)
    else if i <? 48 then (Z.lxor (Z.lxor b c) d, (3 * i + 5) mod 16)
    else (Z.lxor c (Z.lor b (not32 d)), (7 * i) mod 16) in
  let f' := w32 (f + a + zth sines i + zth m g) in
  (d, w32 (b + rotl32 f' (zth shifts i)), b, c).

Definition block (st : digest) (blk : list Z) : digest :=
  let m := map word_le (chunks 16 4 blk) in
  let '(a, b, c, d) := st in
  let '(a', b', c', d') := fold_left (round m) (map Z.of_nat (seq 0 64)) st in
  (w32 (a + a'), w32 (b + b'), w32 (c + c'), w32 (d + d')).

Definition init : digest := (0x67452301, 0xefcdab89, 0x98badcfe, 0x10325476).

(** [md5.Sum]: the sixteen bytes of the digest. *)
Definition Sum (data : list Z) : list Z :=
  let msg := data ++ padding (Z.of_nat (List.length data)) in
  let '(a, b, c, d) := fold_left block (chunks (List.length msg) 64 msg) init in
  bytes_le 4 a ++ bytes_le 4 b ++ bytes_le 4 c ++ bytes_le 4 d.

End md5.

(** How many entries of a trace satisfy a test. *)
Fixpoint count {A} (f : A -> bool) (l : list A) : nat :=
  match l with
  | [] => 0%nat
  | x :: rest => ((if f x then 1 else 0) + count f rest)%nat
  end.

(** ** github.com/pkg/errors *)

Inductive Errno : Type := ENOENT | EACCES | EISDIR.

Inductive error : Type :=
  | errors_New (msg : string)
  | withMessage (cause : error) (msg : string)
  | PathError (op path : string) (errno : Errno).

(** [errors.Wrap] and [errors.Wrapf]: nil stays nil. *)
Definition errors_Wrap (err : option error) (msg : string) : option error :=
  match err with
  | None => None
  | Some cause => Some (withMessage cause msg)
  end.

Definition Errno_Error (e : Errno) : string :=
  match e with
  | ENOENT => "no such file or directory"
  | EACCES => "permission denied"
  | EISDIR => "is a directory"
  end.

Fixpoint error_Error (e : error) : string :=
  match e with
  | errors_New msg => msg
  | withMessage cause msg => msg +:+ ": " +:+ error_Error cause
  | PathError op path errno => op +:+ " " +:+ path +:+ ": " +:+ Errno_Error errno
  end.

(** ** github.com/tychoish/grip and github.com/mongodb/amboy *)

Inductive Level : Type := Debug | Info | Notice | Warning | Error_.

Record JobType : Type := mkJobType { jt_Name : string; jt_Version : Z }.

(** Modelled from the spec: the helpers of the repository that are not in
    this slice ([Bucket.Get], [Job.signFile], [BuildIndexPageForDirectory])
    write a log line for an action that the dry-run mode suppresses.  What
    such a helper works on is [acted_on]; [journal] is the log it writes. *)
Record Journaled (X : Type) : Type := mkJournaled {
  acted_on : X;
  journal : list string
}.
Arguments mkJournaled {X} _ _.
Arguments acted_on {X} _.
Arguments journal {X} _.

(** Modelled from the spec: a helper that only logs an action adds a line
    and leaves what it works on alone. *)
Definition journal_line {X : Type} (line : string) (w : Journaled X) : Journaled X :=
  mkJournaled (acted_on w) (journal w ++ [line]).

(** ** Package sthree: [syncFromJob] *)

Module sthree.

(** [s3.Key] of goamz: one entry of a bucket listing. *)
Record s3_Key : Type := mkKey {
  Key : string;
  LastModified : string;
  Size : Z;
  ETag : string;
  StorageClass : string
}.

(** The fields of [Bucket] that the job reads. *)
Record Bucket : Type := mkBucket {
  bucketName : string;
  dryRun : bool
}.

Record syncFromJob : Type := mkJob {
  isComplete : bool;
  withDelete : bool;
  remoteFile : s3_Key;
  b : Bucket;
  t : JobType;
  localPath : string;
  name : string;
  errors : list error
}.

(** [n] is the value that [job.GetNumber()] returns at the call. *)
Definition newSyncFromJob (bk : Bucket) (path : string) (remote : s3_Key)
    (del : bool) (n : nat) : syncFromJob :=
  {| name := path +:+ "." +:+ Sprintf_d n +:+ ".sync-from";
     remoteFile := remote;
     withDelete := del;
     localPath := path;
     b := bk;
     t := {| jt_Name := "s3-sync-from"; jt_Version := 0 |};
     isComplete := false;
     errors := [] |}.

Definition ID (j : syncFromJob) : string := name j.
Definition Type_ (j : syncFromJob) : JobType := t j.
Definition Completed (j : syncFromJob) : bool := isComplete j.

Definition set_isComplete (v : bool) (j : syncFromJob) : syncFromJob :=
  {| isComplete := v; withDelete := withDelete j; remoteFile := remoteFile j;
     b := b j; t := t j; localPath := localPath j; name := name j;
     errors := errors j |}.

Definition set_errors (es : list error) (j : syncFromJob) : syncFromJob :=
  {| isComplete := isComplete j; withDelete := withDelete j;
     remoteFile := remoteFile j; b := b j; t := t j; localPath := localPath j;
     name := name j; errors := es |}.

Definition markComplete (j : syncFromJob) : syncFromJob := set_isComplete true j.

Definition addError (err : option error) (j : syncFromJob) : syncFromJob :=
  match err with
  | Some e => set_errors (errors j ++ [e]) j
  | None => j
  end.

(** *** The local filesystem

    A flat map from paths to nodes; the children of a directory [p] are the
    paths that start with [p/]. *)

Record Node : Type := mkNode {
  isDir : bool;
  data : string;
  readable : bool;
  removable : bool
}.

Record World (Remote : Type) : Type := mkWorld {
  fs : gmap string Node;
  remote : Remote
}.
Arguments mkWorld {Remote} _ _.
Arguments fs {Remote} _.
Arguments remote {Remote} _.

Definition os_Stat (files : gmap string Node) (path : string) : option error :=
  match files !! path with
  | Some _ => None
  | None => Some (PathError "stat" path ENOENT)
  end.

Definition os_IsNotExist (err : option error) : bool :=
  match err with
  | Some (PathError _ _ ENOENT) => true
  | _ => false
  end.

(** [ioutil.ReadFile]: the content, or no bytes and the error. *)
Definition ioutil_ReadFile (files : gmap string Node) (path : string)
    : string * option error :=
  match files !! path with
  | None => (EmptyString, Some (PathError "open" path ENOENT))
  | Some n =>
      if isDir n then (EmptyString, Some (PathError "read" path EISDIR))
      else if readable n then (data n, None)
      else (EmptyString, Some (PathError "open" path EACCES))
  end.

(** [q] is [path] or lies below it. *)
Definition under (path q : string) : bool :=
  String.eqb q path || String.prefix (path +:+ "/") q.

(** [os.RemoveAll]: nil when nothing is there; otherwise everything at and
    below the path goes, unless some node there refuses, and then what can
    go goes and the first error comes back. *)
Definition os_RemoveAll (files : gmap string Node) (path : string)
    : option error * gmap string Node :=
  let victims := filter (fun kv => under path kv.1 = true) files in
  let stuck := (map_to_list (filter (fun kv => removable kv.2 = false) victims)).*1 in
  match stuck with
  | [] => (None, filter (fun kv => under path kv.1 = false) files)
  | q :: _ =>
      (Some (PathError "unlinkat" q EACCES),
       filter (fun kv => under path kv.1 = false
                         ∨ existsb (under kv.1) stuck = true) files)
  end.

(** *** What a run does, in order *)

Inductive Event : Type :=
  | CallExists (key : string)
  | CallGet (key path : string)
  | CallStat (path : string)
  | CallReadFile (path : string)
  | CallRemoveAll (path : string)
  | Log (lvl : Level) (msg : string).

Definition is_CallGet (ev : Event) : bool :=
  match ev with CallGet _ _ => true | _ => false end.
Definition is_CallRemoveAll (ev : Event) : bool :=
  match ev with CallRemoveAll _ => true | _ => false end.
Definition is_storage_call (ev : Event) : bool :=
  match ev with CallExists _ | CallGet _ _ => true | _ => false end.
Definition is_fs_call (ev : Event) : bool :=
  match ev with CallStat _ | CallReadFile _ | CallRemoveAll _ => true | _ => false end.

(** The number of fetches a stub of the storage service would count. *)
Definition fetch_calls (tr : list Event) : nat := count is_CallGet tr.

Section Job.

Context {Remote : Type}.

(** [Bucket.Exists] and [Bucket.Get], the storage client: any function of the
    bucket, its arguments and the world will do. *)
Variable Bucket_Exists :
  Bucket -> string -> World Remote -> (bool * option error) * World Remote.
Variable Bucket_Get :
  Bucket -> string -> string -> World Remote -> option error * World Remote.

Record St : Type := mkSt {
  job : syncFromJob;
  world : World Remote;
  trace : list Event
}.

Definition M (A : Type) : Type := St -> A * St.

#[local] Instance M_ret : MRet M := fun _ a s => (a, s).
#[local] Instance M_bind : MBind M :=
  fun _ _ f m s => let '(a, s') := m s in f a s'.

Definition self : M syncFromJob := fun s => (job s, s).

Definition on_job (f : syncFromJob -> syncFromJob) : M unit :=
  fun s => (tt, {| job := f (job s); world := world s; trace := trace s |}).

Definition emit (ev : Event) : M unit :=
  fun s => (tt, {| job := job s; world := world s; trace := trace s ++ [ev] |}).

Definition call_Exists (key : string) : M (bool * option error) :=
  fun s =>
    let '(r, w) := Bucket_Exists (b (job s)) key (world s) in
    (r, {| job := job s; world := w; trace := trace s ++ [CallExists key] |}).

Definition call_Get (key path : string) : M (option error) :=
  fun s =>
    let '(r, w) := Bucket_Get (b (job s)) key path (world s) in
    (r, {| job := job s; world := w; trace := trace s ++ [CallGet key path] |}).

Definition call_Stat (path : string) : M (option error) :=
  fun s =>
    (os_Stat (fs (world s)) path,
     {| job := job s; world := world s; trace := trace s ++ [CallStat path] |}).

Definition call_ReadFile (path : string) : M (string * option error) :=
  fun s =>
    (ioutil_ReadFile (fs (world s)) path,
     {| job := job s; world := world s; trace := trace s ++ [CallReadFile path] |}).

Definition call_RemoveAll (path : string) : M (option error) :=
  fun s =>
    let '(r, files) := os_RemoveAll (fs (world s)) path in
    (r, {| job := job s;
           world := mkWorld files (remote (world s));
           trace := trace s ++ [CallRemoveAll path] |}).

(** [grip.NoticeWhenf] and [grip.WarningWhenf] log only when the condition holds. *)
Definition logWhen (cond : bool) (lvl : Level) (msg : string) : M unit :=
  if cond then emit (Log lvl msg) else mret tt.

Definition doGet : M (option error) :=
  j ← self;
  err ← call_Get (Key (remoteFile j)) (localPath j);
  match err with
  | Some _ => mret (errors_Wrap err "problem with s3 get during sync")
  | None => mret None
  end.

(** The body of [Run]; each [return] of the source is the end of a branch. *)
Definition Run_body : M unit :=
  j ← self;
  if String.eqb (Key (remoteFile j)) EmptyString then mret tt
  else
    '(exists_, err) ← call_Exists (Key (remoteFile j));
    match err with
    | Some _ =>
        on_job (addError (errors_Wrap err
          ("problem checking if the file '" +:+ Key (remoteFile j) +:+ "' exists")))
    | None =>
        if negb exists_ then
          if withDelete j && negb (dryRun (b j)) then
            err ← call_RemoveAll (localPath j);
            match err with
            | Some _ =>
                on_job (addError (errors_Wrap err
                  ("problem removing local file " +:+ localPath j
                   +:+ ", during sync from bucket " +:+ bucketName (b j)
                   +:+ " with delete")))
            | None =>
                emit (Log Debug
                  ("removed local file " +:+ localPath j
                   +:+ " during sync from bucket " +:+ bucketName (b j)
                   +:+ " with delete"))
            end
          else
            logWhen (dryRun (b j)) Notice
              ("dry-run: would remove local file " +:+ Key (remoteFile j)
               +:+ " from because it doesn't exist in bucket " +:+ bucketName (b j));;
            logWhen (negb (dryRun (b j))) Warning
              ("file " +:+ Key (remoteFile j)
               +:+ " disappeared during sync pull operation. "
               +:+ "Doing nothing because *not* in delete-mode")
        else
          err ← call_Stat (localPath j);
          if os_IsNotExist err then
            err ← doGet;
            match err with
            | Some _ =>
                on_job (addError (errors_Wrap err "problem downloading file during sync"))
            | None => mret tt
            end
          else
            '(content, err) ← call_ReadFile (localPath j);
            match err with
            | Some _ =>
                on_job (addError (errors_Wrap err
                  "problem reading file before hashing for sync operation"))
            | None => mret tt
            end;;
            let remoteChecksum :=
              strings_Trim (ETag (remoteFile j)) (String quote_char " ") in
            let localChecksum := Sprintf_x (md5.Sum (bytes_of_string content)) in
            if negb (String.eqb localChecksum remoteChecksum) then
              emit (Log Debug
                ("hashes aren't the same: [op=pull, file=" +:+ Key (remoteFile j)
                 +:+ ", local=" +:+ localChecksum
                 +:+ ", remote=" +:+ remoteChecksum +:+ "]"));;
              err ← doGet;
              match err with
              | Some _ =>
                  on_job (addError (errors_Wrap err
                    ("problem fetching file '" +:+ Key (remoteFile j)
                     +:+ "' during sync")))
              | None => mret tt
              end
            else mret tt
    end.

(** [Run]: the deferred [markComplete] runs when the body is left. *)
Definition Run : M unit := Run_body;; on_job markComplete.

(** [fmt.Sprintf] with the verb plus-v on an error of pkg/errors: the
    messages of the chain and the stack trace taken at the wrap. *)
Variable Sprintf_plus_v : error -> string.

(** The loop that appends one rendering per recorded error. *)
Definition Error_outputs (j : syncFromJob) : list string :=
  fold_left (fun outputs err => (outputs ++ [Sprintf_plus_v err])%list) (errors j) [].

Definition Error (j : syncFromJob) : option error :=
  if (List.length (errors j) =? 0)%nat then None
  else Some (errors_New (strings_Join (Error_outputs j) newline)).

(** [n] runs of the same job, one after the other. *)
Definition Run_times (n : nat) (s : St) : St := Nat.iter n (fun s' => (Run s').2) s.

End Job.

(** Everything but the completion flag and the error list, in one tuple. *)
Definition fixed_part (j : syncFromJob) :=
  (withDelete j, remoteFile j, b j, t j, localPath j, name j).

(** The test [Run] makes on the two checksums: the hex digest of the local
    content against the ETag without the quotes and blanks around it. *)
Definition checksums_equal (content etag : string) : bool :=
  String.eqb (Sprintf_x (md5.Sum (bytes_of_string content)))
             (strings_Trim etag (String quote_char " ")).

Definition to_lower (c : ascii) : ascii :=
  let n := nat_of_ascii c in
  if ((65 <=? n) && (n <=? 90))%nat then ascii_of_nat (n + 32) else c.

Fixpoint lower (s : string) : string :=
  match s with
  | EmptyString => EmptyString
  | String c rest => String (to_lower c) (lower rest)
  end.

(** The comparison as the specification words it: the quote characters
    around the remote checksum are stripped and letter case is ignored. *)
Definition spec_checksums_equal (content etag : string) : bool :=
  String.eqb (lower (Sprintf_x (md5.Sum (bytes_of_string content))))
             (lower (strings_Trim etag (String quote_char EmptyString))).

(** [dependency.NewAlways()]: the job is always ready to run. *)
Inductive dependency_Manager : Type := dependency_Always | dependency_Custom (kind : string).

Definition Dependency (j : syncFromJob) : dependency_Manager := dependency_Always.
Definition SetDependency (m : dependency_Manager) (j : syncFromJob) : syncFromJob := j.

(** The same job with another ETag on its remote file. *)
Definition with_ETag (etag : string) (j : syncFromJob) : syncFromJob :=
  {| isComplete := isComplete j; withDelete := withDelete j;
     remoteFile := {| Key := Key (remoteFile j);
                      LastModified := LastModified (remoteFile j);
                      Size := Size (remoteFile j);
                      ETag := etag;
                      StorageClass := StorageClass (remoteFile j) |};
     b := b j; t := t j; localPath := localPath j; name := name j;
     errors := errors j |}.

(** A call on the key and the local path of the job, or a log line. *)
Definition own_call (j : syncFromJob) (ev : Event) : bool :=
  match ev with
  | CallExists key => String.eqb key (Key (remoteFile j))
  | CallGet key path =>
      String.eqb key (Key (remoteFile j)) && String.eqb path (localPath j)
  | CallStat path | CallReadFile path | CallRemoveAll path =>
      String.eqb path (localPath j)
  | Log _ _ => true
  end.

Definition is_CallExists (ev : Event) : bool :=
  match ev with CallExists _ => true | _ => false end.

Fixpoint all_chars (f : ascii -> bool) (s : string) : bool :=
  match s with
  | EmptyString => true
  | String c rest => f c && all_chars f rest
  end.

(** Thirty-two digits out of 0-9 and a-f: what the verb x prints for an MD5. *)
Definition is_md5_hex (s : string) : bool :=
  (String.length s =? 32)%nat
  && all_chars (fun c => in_cutset c "0123456789abcdef") s.

(** Modelled from the spec: the log line that describes a suppressed fetch.
    The spec fixes no wording; the line names the key and the local path. *)
Definition would_fetch (key path : string) : string :=
  "dry-run: would fetch " +:+ key +:+ " to " +:+ path.

(** The lines for the [Get] calls of a trace, in order. *)
Definition fetch_lines (tr : list Event) : list string :=
  flat_map (fun ev => match ev with
                      | CallGet key path => [would_fetch key path]
                      | _ => []
                      end) tr.

(** Modelled from the spec: [Bucket.Get], whose body is not under src/.  With
    the dry-run flag of the bucket set, the fetch is not performed, only
    logged, and no error comes back; otherwise the storage client [transfer]
    brings the object to the local path. *)
Definition spec_Bucket_Get {R : Type}
    (transfer : string -> string -> World (Journaled R) -> option error * World (Journaled R))
    (bk : Bucket) (key path : string) (w : World (Journaled R))
    : option error * World (Journaled R) :=
  if dryRun bk
  then (None, mkWorld (fs w) (journal_line (would_fetch key path) (remote w)))
  else transfer key path w.

End sthree.

(** ** Package repobuilder: [BuildRPMRepoJob] *)

Module repobuilder.

(** The elements between the slashes: abc//def/ gives abc, the empty string,
    def and the empty string. *)
Fixpoint split_slash (s : string) : list string :=
  match s with
  | EmptyString => [EmptyString]
  | String c rest =>
      if Ascii.eqb c slash then EmptyString :: split_slash rest
      else
        match split_slash rest with
        | [] => [String c EmptyString]
        | x :: xs => String c x :: xs
        end
  end.

(** One element of [filepath.Clean], on the elements kept so far, last one
    first: empty and dot elements go, a dot-dot takes the element before it
    with it, or stays when there is none to take and the path is not rooted. *)
Definition clean_step (rooted : bool) (kept : list string) (elem : string)
    : list string :=
  if String.eqb elem EmptyString || String.eqb elem "." then kept
  else if String.eqb elem ".." then
    match kept with
    | top :: below => if String.eqb top ".." then elem :: kept else below
    | [] => if rooted then [] else [elem]
    end
  else elem :: kept.

(** [filepath.Clean] with the slash as separator. *)
Definition filepath_Clean (path : string) : string :=
  let rooted := String.prefix "/" path in
  let kept := List.rev (fold_left (clean_step rooted) (split_slash path) []) in
  let out := (if rooted then "/" else EmptyString) +:+ strings_Join kept "/" in
  if String.eqb out EmptyString then "." else out.

(** [filepath.Join]: empty elements are ignored and the result is cleaned;
    no elements, or only empty ones, give the empty string. *)
Definition filepath_Join (elems : list string) : string :=
  match List.filter (fun e => negb (String.eqb e EmptyString)) elems with
  | [] => EmptyString
  | kept => filepath_Clean (strings_Join kept "/")
  end.

(** An element without a slash. *)
Fixpoint no_slash (s : string) : bool :=
  match s with
  | EmptyString => true
  | String c rest => negb (Ascii.eqb c slash) && no_slash rest
  end.

(** A name that cleaning keeps as it is: not empty, not dot or dot-dot, and
    without a slash. *)
Definition plain (e : string) : bool :=
  negb (String.eqb e EmptyString) && negb (String.eqb e ".")
  && negb (String.eqb e "..") && no_slash e.

(** The path below a directory: the directory, a slash, and the elements
    with slashes between them. *)
Definition below (dir : string) (l : list string) : string :=
  dir +:+ "/" +:+ strings_Join l "/".

Inductive Event : Type :=
  | Log (lvl : Level) (msg : string)
  | CallCombinedOutput (args : list string)
  | CallSignFile (fileName extension : string) (overwrite : bool)
  | CallBuildIndexPage (dir bucket : string).

(** Where a pipeline of [rebuildRepo] stands.  The stops are the blocking
    calls and the accesses to the fields of the job that pipelines share. *)
Inductive pc : Type :=
  | AtStart
  | AfterExec (out : string) (err : option error)
  | AtStore (output : string)
  | AtSign
  | AfterSign (err : option error)
  | AtIndex
  | AfterIndex (err : option error)
  | Returned.

Section Build.

(** [RepositoryConfig] and [curator.MongoDBVersion] are declared in files
    outside this development and stay abstract; [W] is the machine the
    subprocesses run on. *)
Context {RepositoryConfig MongoDBVersion W : Type}.

Record RepositoryDefinition : Type := mkDistro {
  DistroName : string;
  Bucket : string
}.

(** Modelled from the spec: the declaration of [Job] is not in rpm.go.  These
    are the fields rpm.go reads and writes; [Errors] is the accumulated error
    list of the job contract, and [Output] the map from working directory to
    tool output that the pipelines share under the mutex. *)
Record Job : Type := mkJob {
  Name : string;
  Distro : RepositoryDefinition;
  Conf : RepositoryConfig;
  Output : gmap string string;
  JobType_ : JobType;
  Version : string;
  Arch : string;
  Profile : string;
  WorkSpace : string;
  PackagePaths : list string;
  DryRun : bool;
  release : option MongoDBVersion;
  Errors : list error
}.

Record BuildRPMRepoJob : Type := mkRPM { Job_ : Job }.

(** The zero job of [buildRepoJob()], the working directory that [os.Getwd]
    finds, and the version parser [curator.NewMongoDBVersion]. *)
Variable buildRepoJob : Job.
Variable os_Getwd : string * option error.
Variable NewMongoDBVersion : string -> MongoDBVersion + error.

(** [n] is the value that [job.GetNumber()] returns at the call. *)
Definition NewBuildRPMRepo (conf : RepositoryConfig) (distro : RepositoryDefinition)
    (version arch profile : string) (pkgs : list string) (n : nat)
    : option BuildRPMRepoJob * option error :=
  let r := buildRepoJob in
  match os_Getwd with
  | (_, Some err) => (None, Some err)
  | (wd, None) =>
      match NewMongoDBVersion version with
      | inr err => (None, Some err)
      | inl rel =>
          (Some (mkRPM
             {| WorkSpace := wd;
                release := Some rel;
                JobType_ := {| jt_Name := "build-rpm-repo"; jt_Version := 0 |};
                Name := "build-rpm-repo." +:+ Sprintf_d n;
                Distro := distro;
                Conf := conf;
                PackagePaths := pkgs;
                Version := version;
                Arch := arch;
                Profile := profile;
                Output := Output r;
                DryRun := DryRun r;
                Errors := Errors r |}),
           None)
      end
  end.

(** The subprocess and the two helpers of [Job] that rebuildRepo calls. *)
Variable exec_CombinedOutput : list string -> W -> (string * option error) * W.
Variable Job_signFile : Job -> string -> string -> bool -> W -> option error * W.
Variable BuildIndexPageForDirectory :
  RepositoryConfig -> string -> string -> W -> option error * W.

(** One state for all pipelines of a job: the job behind the shared pointer,
    the machine, the wait group and the trace, each entry with the working
    directory of the pipeline that made it. *)
Record St : Type := mkSt {
  job : Job;
  world : W;
  wg : Z;
  trace : list (string * Event)
}.

Definition M (A : Type) : Type := St -> A * St.

#[local] Instance M_ret : MRet M := fun _ a s => (a, s).
#[local] Instance M_bind : MBind M :=
  fun _ _ f m s => let '(a, s') := m s in f a s'.

Definition self : M Job := fun s => (job s, s).

Definition on_job (f : Job -> Job) : M unit :=
  fun s => (tt, {| job := f (job s); world := world s; wg := wg s; trace := trace s |}).

Definition on_world {A} (f : W -> A * W) (who : string) (ev : Event) : M A :=
  fun s =>
    let '(a, w) := f (world s) in
    (a, {| job := job s; world := w; wg := wg s; trace := trace s ++ [(who, ev)] |}).

Definition emit (who : string) (ev : Event) : M unit :=
  fun s => (tt, {| job := job s; world := world s; wg := wg s;
                   trace := trace s ++ [(who, ev)] |}).

Definition wg_Done : M unit :=
  fun s => (tt, {| job := job s; world := world s; wg := wg s - 1; trace := trace s |}).

Definition set_Errors (es : list error) (j : Job) : Job :=
  {| Name := Name j; Distro := Distro j; Conf := Conf j; Output := Output j;
     JobType_ := JobType_ j; Version := Version j; Arch := Arch j;
     Profile := Profile j; WorkSpace := WorkSpace j; PackagePaths := PackagePaths j;
     DryRun := DryRun j; release := release j; Errors := es |}.

Definition set_Output (out : gmap string string) (j : Job) : Job :=
  {| Name := Name j; Distro := Distro j; Conf := Conf j; Output := out;
     JobType_ := JobType_ j; Version := Version j; Arch := Arch j;
     Profile := Profile j; WorkSpace := WorkSpace j; PackagePaths := PackagePaths j;
     DryRun := DryRun j; release := release j; Errors := Errors j |}.

(** Modelled from the spec: [Job.addError] is not in rpm.go; as in the sync
    job, a non-nil error is appended to the accumulated list. *)
Definition addError (err : option error) (j : Job) : Job :=
  match err with
  | Some e => set_Errors (Errors j ++ [e]) j
  | None => j
  end.

(** [j.mutex.Lock(); j.Output[workingDir] = output; j.mutex.Unlock()] *)
Definition store_Output (workingDir output : string) : M unit :=
  on_job (fun j => set_Output (<[workingDir := output]> (Output j)) j).

Definition cmd_Args (workingDir : string) : list string :=
  ["createrepo"; "-d"; "-s"; "sha"; workingDir].

Definition metaDataFile (workingDir : string) : string :=
  filepath_Join [workingDir; "repodata"; "repomd.xml"].

Definition createrepo_msg (workingDir : string) : string :=
  "running createrepo for " +:+ workingDir.
Definition sign_msg (workingDir : string) : string :=
  "signing release metadata for " +:+ workingDir.
Definition index_msg (workingDir : string) : string :=
  "building index.html pages for " +:+ workingDir.

(** The body of [rebuildRepo]; [ran] is nil where the source returns after
    the failed subprocess. *)
Definition rebuildRepo_body (workingDir : string) : M unit :=
  j ← self;
  let args := strings_Join (cmd_Args workingDir) " " in
  emit workingDir (Log Info ("building repo with operation: " +:+ args));;
  ran ← (if DryRun j then
           emit workingDir (Log Notice ("[dry-run] would run: " +:+ args));;
           mret (Some "no output: dry run")
         else
           emit workingDir (Log Notice ("building repo with operation: " +:+ args));;
           '(output, err) ← on_world (exec_CombinedOutput (cmd_Args workingDir))
                              workingDir (CallCombinedOutput (cmd_Args workingDir));
           match err with
           | Some e =>
               on_job (addError (errors_Wrap err (createrepo_msg workingDir)));;
               emit workingDir (Log Error_ (error_Error e));;
               emit workingDir (Log Info output);;
               mret None
           | None =>
               emit workingDir (Log Debug output);;
               mret (Some output)
           end);
  match ran with
  | None => mret tt
  | Some output =>
      emit workingDir (Log Info ("rebuilt repo for: " +:+ workingDir));;
      store_Output workingDir output;;
      j ← self;
      err ← on_world (Job_signFile j (metaDataFile workingDir) "asc" false)
              workingDir (CallSignFile (metaDataFile workingDir) "asc" false);
      match err with
      | Some _ => on_job (addError (errors_Wrap err (sign_msg workingDir)))
      | None =>
          j ← self;
          err ← on_world (BuildIndexPageForDirectory (Conf j) workingDir (Bucket (Distro j)))
                  workingDir (CallBuildIndexPage workingDir (Bucket (Distro j)));
          match err with
          | Some _ => on_job (addError (errors_Wrap err (index_msg workingDir)))
          | None => mret tt
          end
      end
  end.

(** [rebuildRepo]: the deferred [wg.Done()] runs when the body is left. *)
Definition rebuildRepo (workingDir : string) : M unit :=
  rebuildRepo_body workingDir;; wg_Done.

(** *** Pipelines side by side

    The same function cut at its stops: [step] runs one pipeline from one
    stop to the next.  Go may run any other pipeline in between. *)
Definition step (workingDir : string) (p : pc) : M pc :=
  match p with
  | AtStart =>
      j ← self;
      let args := strings_Join (cmd_Args workingDir) " " in
      emit workingDir (Log Info ("building repo with operation: " +:+ args));;
      if DryRun j then
        emit workingDir (Log Notice ("[dry-run] would run: " +:+ args));;
        mret (AtStore "no output: dry run")
      else
        emit workingDir (Log Notice ("building repo with operation: " +:+ args));;
        '(output, err) ← on_world (exec_CombinedOutput (cmd_Args workingDir))
                           workingDir (CallCombinedOutput (cmd_Args workingDir));
        mret (AfterExec output err)
  | AfterExec output err =>
      match err with
      | Some e =>
          on_job (addError (errors_Wrap err (createrepo_msg workingDir)));;
          emit workingDir (Log Error_ (error_Error e));;
          emit workingDir (Log Info output);;
          wg_Done;;
          mret Returned
      | None =>
          emit workingDir (Log Debug output);;
          mret (AtStore output)
      end
  | AtStore output =>
      emit workingDir (Log Info ("rebuilt repo for: " +:+ workingDir));;
      store_Output workingDir output;;
      mret AtSign
  | AtSign =>
      j ← self;
      err ← on_world (Job_signFile j (metaDataFile workingDir) "asc" false)
              workingDir (CallSignFile (metaDataFile workingDir) "asc" false);
      mret (AfterSign err)
  | AfterSign err =>
      match err with
      | Some _ =>
          on_job (addError (errors_Wrap err (sign_msg workingDir)));;
          wg_Done;;
          mret Returned
      | None => mret AtIndex
      end
  | AtIndex =>
      j ← self;
      err ← on_world (BuildIndexPageForDirectory (Conf j) workingDir (Bucket (Distro j)))
              workingDir (CallBuildIndexPage workingDir (Bucket (Distro j)));
      mret (AfterIndex err)
  | AfterIndex err =>
      match err with
      | Some _ => on_job (addError (errors_Wrap err (index_msg workingDir)))
      | None => mret tt
      end;;
      wg_Done;;
      mret Returned
  | Returned => mret Returned
  end.

(** A pipeline on its own, for at most [fuel] stops. *)
Fixpoint run_thread (fuel : nat) (workingDir : string) (p : pc) (s : St) : pc * St :=
  match fuel with
  | O => (p, s)
  | S fuel' => let '(p', s') := step workingDir p s in run_thread fuel' workingDir p' s'
  end.

(** The pipelines of one build, and a schedule: at each turn the pipeline
    with the given index moves to its next stop. *)
Definition turn (ps : list (string * pc) * St) (i : nat) : list (string * pc) * St :=
  match ps.1 !! i with
  | Some (workingDir, p) =>
      let '(p', s') := step workingDir p ps.2 in
      (<[i := (workingDir, p')]> ps.1, s')
  | None => ps
  end.

Definition run_schedule (sched : list nat) (ps : list (string * pc) * St)
    : list (string * pc) * St :=
  fold_left turn sched ps.

Definition spawn (dirs : list string) : list (string * pc) :=
  map (fun workingDir => (workingDir, AtStart)) dirs.

Definition is_Returned (p : pc) : bool :=
  match p with Returned => true | _ => false end.

Definition all_returned (pool : list (string * pc)) : bool :=
  forallb (fun tp => is_Returned tp.2) pool.

(** Every pipeline in turn, seven rounds: enough for each to return. *)
Definition round_robin (n : nat) : list nat := concat (replicate 7 (seq 0 n)).

(** The stops a pipeline has before it, at most. *)
Definition rank (p : pc) : nat :=
  match p with
  | AtStart => 7
  | AfterExec _ _ => 6
  | AtStore _ => 5
  | AtSign => 4
  | AfterSign _ => 3
  | AtIndex => 2
  | AfterIndex _ => 1
  | Returned => 0
  end.

(** The stops that pipeline [i] of the pool has before it, at most. *)
Definition remaining (pool : list (string * pc)) (i : nat) : nat :=
  match pool !! i with
  | Some tp => rank tp.2
  | None => 0
  end.

(** An error that a stage of [rebuildRepo] records for the working directory. *)
Definition names_dir (workingDir : string) (e : error) : bool :=
  match e with
  | withMessage _ msg =>
      String.eqb msg (createrepo_msg workingDir)
      || String.eqb msg (sign_msg workingDir)
      || String.eqb msg (index_msg workingDir)
  | _ => false
  end.

Definition errors_naming (workingDir : string) (es : list error) : list error :=
  List.filter (names_dir workingDir) es.

Definition is_stage_call (ev : Event) : bool :=
  match ev with
  | CallSignFile _ _ _ | CallBuildIndexPage _ _ => true
  | _ => false
  end.

Definition is_exec (ev : Event) : bool :=
  match ev with CallCombinedOutput _ => true | _ => false end.

(** The sign and index calls that the pipeline of the directory has made. *)
Definition stage_calls (workingDir : string) (tr : list (string * Event))
    : list (string * Event) :=
  List.filter (fun x => String.eqb x.1 workingDir && is_stage_call x.2) tr.

(** What one pipeline can tell of the shared state. *)
Record View : Type := mkView {
  v_dry : bool;
  v_output : option string;
  v_errors : list error;
  v_calls : list (string * Event)
}.

Definition view (workingDir : string) (s : St) : View :=
  {| v_dry := DryRun (job s);
     v_output := Output (job s) !! workingDir;
     v_errors := errors_naming workingDir (Errors (job s));
     v_calls := stage_calls workingDir (trace s) |}.

(** A property of the stop and the view of one pipeline that its own steps
    keep. *)
Definition stable (workingDir : string) (P : pc -> View -> Prop) : Prop :=
  forall (p : pc) (s : St),
    P p (view workingDir s) ->
    P (step workingDir p s).1 (view workingDir (step workingDir p s).2).

(** In the schedule the pipeline of the directory made its own call of the
    subprocess and got [r] back: at some turn it was scheduled while it stood
    at the start, and [r] is what the subprocess returns on the machine as it
    was then. *)
Definition exec_returned (sched : list nat) (dirs : list string) (s0 : St)
    (workingDir : string) (r : string * option error) : Prop :=
  exists n i,
    sched !! n = Some i
    /\ (run_schedule (take n sched) (spawn dirs, s0)).1 !! i = Some (workingDir, AtStart)
    /\ (exec_CombinedOutput (cmd_Args workingDir)
          (world (run_schedule (take n sched) (spawn dirs, s0)).2)).1 = r.

(** Until its subprocess has returned, a pipeline has changed nothing that
    it can see. *)
Definition untouched_inv (v0 : View) (p : pc) (v : View) : Prop :=
  match p with
  | AtStart | AfterExec _ _ => v = v0
  | _ => True
  end.

(** From the return of a subprocess that failed with [e] on. *)
Definition failed_inv (workingDir : string) (v0 : View) (out : string) (e : error)
    (p : pc) (v : View) : Prop :=
  match p with
  | AfterExec out' err' => out' = out /\ err' = Some e /\ v = v0
  | Returned =>
      v = {| v_dry := v_dry v0;
             v_output := v_output v0;
             v_errors := v_errors v0 ++ [withMessage e (createrepo_msg workingDir)];
             v_calls := v_calls v0 |}
  | _ => False
  end.

(** From the return of a subprocess that succeeded with output [out] on. *)
Definition succeeded_inv (out : string) (p : pc) (v : View) : Prop :=
  match p with
  | AtStart => False
  | AfterExec out' err' => out' = out /\ err' = None
  | AtStore out' => out' = out
  | _ => v_output v = Some out
  end.

(** [Job.linkPackages], declared outside rpm.go: it links the package paths
    of the job into the directory. *)
Variable Job_linkPackages : Job -> string -> W -> option error * W.

Definition linking_msg (repoPath : string) : string :=
  "linking packages for " +:+ repoPath.

Definition injectPackage (j : Job) (local repoName : string) (w : W)
    : (string * option error) * W :=
  let repoPath := filepath_Join [local; repoName; Arch j] in
  let '(err, w') := Job_linkPackages j (filepath_Join [repoPath; "RPMS"]) w in
  ((repoPath, errors_Wrap err (linking_msg repoPath)), w').

Definition is_call (ev : Event) : bool :=
  match ev with Log _ _ => false | _ => true end.

(** How many pipelines of the pool have returned. *)
Definition returned (pool : list (string * pc)) : nat :=
  count (fun tp : string * pc => is_Returned tp.2) pool.

(** The subprocess and helper calls of a trace, in order, without the log
    lines and the directory tags. *)
Definition calls_of (tr : list (string * Event)) : list Event :=
  List.filter is_call (map snd tr).

End Build.

(** Modelled from the spec: the log lines that describe a suppressed
    signature and a suppressed index page.  The spec fixes no wording; the
    lines name what would have been signed and indexed. *)
Definition would_sign (fileName extension : string) : string :=
  "[dry-run] would sign " +:+ fileName +:+ " with extension " +:+ extension.

Definition would_index (dir bucket : string) : string :=
  "[dry-run] would build index pages for " +:+ dir +:+ " in " +:+ bucket.

(** Modelled from the spec: [Job.signFile], whose body is not under src/.
    With the dry-run flag of the job set, no signature is produced, the
    action is only logged and no error comes back; otherwise the external
    signer [sign] runs. *)
Definition spec_signFile {RepositoryConfig MongoDBVersion X : Type}
    (sign : Job (RepositoryConfig := RepositoryConfig) (MongoDBVersion := MongoDBVersion)
            -> string -> string -> bool -> Journaled X -> option error * Journaled X)
    (j : Job (RepositoryConfig := RepositoryConfig) (MongoDBVersion := MongoDBVersion))
    (fileName extension : string) (overwrite : bool) (w : Journaled X)
    : option error * Journaled X :=
  if DryRun j
  then (None, journal_line (would_sign fileName extension) w)
  else sign j fileName extension overwrite w.

(** Modelled from the spec: [RepositoryConfig.BuildIndexPageForDirectory],
    whose body is not under src/.  The dry-run flag is process-wide: [mode]
    is its value in this process.  With it set, no index page is written, the
    action is only logged and no error comes back; otherwise the index
    builder [index] runs. *)
Definition spec_BuildIndexPageForDirectory {RepositoryConfig X : Type} (mode : bool)
    (index : RepositoryConfig -> string -> string -> Journaled X -> option error * Journaled X)
    (conf : RepositoryConfig) (dir bucket : string) (w : Journaled X)
    : option error * Journaled X :=
  if mode
  then (None, journal_line (would_index dir bucket) w)
  else index conf dir bucket w.

End repobuilder.

(** ** Scenarios: a stub of the storage service and concrete jobs *)

Module scenario.

Import sthree.

(** The stub keeps the objects of the bucket by key, answers [Exists] from
    them and writes the object to the local path on [Get]. *)
Definition stub_Exists (bk : Bucket) (key : string) (w : World (gmap string string))
    : (bool * option error) * World (gmap string string) :=
  ((bool_decide (is_Some (remote w !! key)), None), w).

Definition stub_Get (bk : Bucket) (key path : string) (w : World (gmap string string))
    : option error * World (gmap string string) :=
  match remote w !! key with
  | Some content =>
      (None, mkWorld (<[path := mkNode false content true true]> (fs w)) (remote w))
  | None => (Some (errors_New "NoSuchKey"), w)
  end.

Definition render (e : error) : string := error_Error e.

Definition quoted (s : string) : string :=
  String quote_char (s +:+ String quote_char EmptyString).

Definition hello_key (etag : string) : s3_Key :=
  {| Key := "dist/hello.txt"; LastModified := "2016-08-01"; Size := 5;
     ETag := etag; StorageClass := "STANDARD" |}.

Definition hello_world : World (gmap string string) :=
  mkWorld {[ "/srv/hello.txt" := mkNode false "hello" true true ]}
          {[ "dist/hello.txt" := "HELLO" ]}.

Definition hello_job (etag : string) (dry : bool) : syncFromJob :=
  newSyncFromJob (mkBucket "releases" dry) "/srv/hello.txt" (hello_key etag) true 7.

Definition start (j : syncFromJob) (w : World (gmap string string))
    : St (Remote := gmap string string) :=
  mkSt j w [].

(** A storage service that cannot be reached. *)
Definition down_Exists (bk : Bucket) (key : string) (w : World (gmap string string))
    : (bool * option error) * World (gmap string string) :=
  ((false, Some (errors_New "connection timed out")), w).

Definition down_Get (bk : Bucket) (key path : string) (w : World (gmap string string))
    : option error * World (gmap string string) :=
  (Some (errors_New "connection reset"), w).

(** The hello job without delete-mode. *)
Definition keep_job (etag : string) (dry : bool) : syncFromJob :=
  newSyncFromJob (mkBucket "releases" dry) "/srv/hello.txt" (hello_key etag) false 8.

(** Two local files, one of them the job's, and an empty bucket. *)
Definition two_files : World (gmap string string) :=
  mkWorld (<[ "/srv/hello.txt" := mkNode false "hello" true true ]>
             {[ "/srv/other.txt" := mkNode false "other" true true ]})
          ∅.

(** No local file yet; the object is in the bucket. *)
Definition fresh_world : World (gmap string string) :=
  mkWorld ∅ {[ "dist/hello.txt" := "HELLO" ]}.

(** The same storage service behind a client that keeps a log. *)
Definition logged_Exists (bk : Bucket) (key : string)
    (w : World (Journaled (gmap string string)))
    : (bool * option error) * World (Journaled (gmap string string)) :=
  ((bool_decide (is_Some (acted_on (remote w) !! key)), None), w).

Definition logged_transfer (key path : string)
    (w : World (Journaled (gmap string string)))
    : option error * World (Journaled (gmap string string)) :=
  match acted_on (remote w) !! key with
  | Some content =>
      (None, mkWorld (<[path := mkNode false content true true]> (fs w)) (remote w))
  | None => (Some (errors_New "NoSuchKey"), w)
  end.

Definition mkLogged (j : syncFromJob) (w : World (Journaled (gmap string string)))
    : St (Remote := Journaled (gmap string string)) :=
  mkSt j w [].

(** A stale local copy, the object in the bucket, an empty log. *)
Definition stale_world : World (Journaled (gmap string string)) :=
  mkWorld {[ "/srv/hello.txt" := mkNode false "hello" true true ]}
          (mkJournaled {[ "dist/hello.txt" := "HELLO" ]} []).

(** The local copy of an object that has left the bucket. *)
Definition orphan_world : World (Journaled (gmap string string)) :=
  mkWorld {[ "/srv/hello.txt" := mkNode false "hello" true true ]}
          (mkJournaled ∅ []).

End scenario.

Module build_scenario.

Import repobuilder.

(** The indexer fails on the i386 tree and prints a line for the others; the
    machine counts the subprocesses it has run. *)
Definition stub_exec (args : list string) (runs : nat)
    : (string * option error) * nat :=
  match last args with
  | Some dir =>
      if String.eqb dir "repo/i386"
      then (("cannot open repo/i386/RPMS", Some (errors_New "exit status 1")), S runs)
      else (("Saving Primary metadata for " +:+ dir, None), S runs)
  | None => ((EmptyString, Some (errors_New "exit status 2")), S runs)
  end.

Definition stub_signFile (j : Job (RepositoryConfig := unit) (MongoDBVersion := string))
    (fileName extension : string) (overwrite : bool) (runs : nat)
    : option error * nat :=
  (None, runs).

Definition stub_buildIndex (conf : unit) (dir bucket : string) (runs : nat)
    : option error * nat :=
  (None, runs).

Definition stub_parse (version : string) : string + error :=
  if String.eqb version "3.2.7" then inl version
  else inr (errors_New ("invalid version " +:+ version)).

Definition zero_job : Job (RepositoryConfig := unit) (MongoDBVersion := string) :=
  {| Name := EmptyString; Distro := mkDistro EmptyString EmptyString; Conf := tt;
     Output := ∅; JobType_ := mkJobType EmptyString 0; Version := EmptyString;
     Arch := EmptyString; Profile := EmptyString; WorkSpace := EmptyString;
     PackagePaths := []; DryRun := false; release := None; Errors := [] |}.

Definition rpm_job (dry : bool) : Job (RepositoryConfig := unit) (MongoDBVersion := string) :=
  {| Name := "build-rpm-repo.4"; Distro := mkDistro "rhel7" "repo.example.org"; Conf := tt;
     Output := ∅; JobType_ := mkJobType "build-rpm-repo" 0; Version := "3.2.7";
     Arch := "x86_64"; Profile := "default"; WorkSpace := "/build";
     PackagePaths := ["/build/server.rpm"]; DryRun := dry; release := Some "3.2.7";
     Errors := [] |}.

Definition three_dirs : list string := ["repo/x86_64"; "repo/i386"; "repo/arm64"].

Definition start (dry : bool) : St (W := nat) :=
  {| job := rpm_job dry; world := 0%nat; wg := 3; trace := [] |}.

(** A signer that refuses. *)
Definition failing_signFile (j : Job (RepositoryConfig := unit) (MongoDBVersion := string))
    (fileName extension : string) (overwrite : bool) (runs : nat)
    : option error * nat :=
  (Some (errors_New "notary: access denied"), runs).

Definition stub_link (j : Job (RepositoryConfig := unit) (MongoDBVersion := string))
    (dir : string) (runs : nat) : option error * nat :=
  (None, S runs).

(** An indexer that depends on the machine: it fails when two subprocesses
    have run before it, whatever the tree, and prints a line otherwise. *)
Definition flaky_exec (args : list string) (runs : nat)
    : (string * option error) * nat :=
  match last args with
  | Some dir =>
      if Nat.eqb runs 2
      then (("createrepo: cannot allocate memory", Some (errors_New "exit status 1")),
            S runs)
      else (("Saving Primary metadata for " +:+ dir, None), S runs)
  | None => ((EmptyString, Some (errors_New "exit status 2")), S runs)
  end.

(** Some order in which Go may run the three pipelines. *)
Definition mixed_schedule : list nat :=
  [2; 0; 1; 1; 0; 2; 2; 0; 1; 0; 2; 0; 2; 1; 0; 2; 0; 2; 0; 2; 1]%nat.

(** A machine with a signer and an index builder that count their runs and
    keep a log. *)
Definition logged_exec (args : list string) (w : Journaled nat)
    : (string * option error) * Journaled nat :=
  ((strings_Join args " ", None), mkJournaled (S (acted_on w)) (journal w)).

Definition logged_sign (j : Job (RepositoryConfig := unit) (MongoDBVersion := string))
    (fileName extension : string) (overwrite : bool) (w : Journaled nat)
    : option error * Journaled nat :=
  (None, mkJournaled (S (acted_on w)) (journal w)).

Definition logged_index (conf : unit) (dir bucket : string) (w : Journaled nat)
    : option error * Journaled nat :=
  (None, mkJournaled (S (acted_on w)) (journal w)).

Definition logged_start (dry : bool) : St (W := Journaled nat) :=
  {| job := rpm_job dry; world := mkJournaled 0%nat []; wg := 1; trace := [] |}.

End build_scenario.

(** * Properties of the sync job *)

Import sthree.

Arguments md5.Sum : simpl never.
Arguments strings_Trim : simpl never.
Arguments bytes_of_string : simpl never.
Arguments Sprintf_x : simpl never.

Ltac unfold_run :=
  cbv [Run Run_body doGet call_Exists call_Get call_Stat call_ReadFile
       call_RemoveAll logWhen emit on_job self mbind mret M_bind M_ret].

(* the calls first, in the order the run makes them, then the tests on
   their results *)
Ltac split_run E G :=
  repeat match goal with
    | |- context [E ?bk ?k ?w] => destruct (E bk k w) as [[? ?] ?] eqn:?; simpl
    | |- context [G ?bk ?k ?p ?w] => destruct (G bk k p w) as [? ?] eqn:?; simpl
    | |- context [os_RemoveAll ?f ?p] => destruct (os_RemoveAll f p) as [? ?] eqn:?; simpl
    | |- context [ioutil_ReadFile ?f ?p] =>
        destruct (ioutil_ReadFile f p) as [? ?] eqn:?; simpl
    | |- context [match ?x with _ => _ end] =>
        lazymatch type of x with
        | bool => destruct x eqn:?; simpl
        | option _ => destruct x eqn:?; simpl
        end
    end.

Section SyncJob.

Context {Remote : Type}.
Variable E : Bucket -> string -> World Remote -> (bool * option error) * World Remote.
Variable G : Bucket -> string -> string -> World Remote -> option error * World Remote.
Variable render : error -> string.

Lemma Run_body_fixed (s : St) :
  fixed_part (job (Run_body E G s).2) = fixed_part (job s)
  /\ isComplete (job (Run_body E G s).2) = isComplete (job s).
Proof.
  unfold_run. split_run E G; auto.
Qed.

Lemma Run_is_body_then_mark (s : St) :
  Run E G s =
  (tt, {| job := markComplete (job (Run_body E G s).2);
          world := world (Run_body E G s).2;
          trace := trace (Run_body E G s).2 |}).
Proof.
  cbv [Run mbind M_bind on_job]. destruct (Run_body E G s) as [[] s1]. reflexivity.
Qed.

Lemma Run_frame_one (s : St) :
  fixed_part (job (Run E G s).2) = fixed_part (job s).
Proof.
  rewrite Run_is_body_then_mark. simpl.
  destruct (Run_body_fixed s) as [Hfix _]. exact Hfix.
Qed.

Lemma count_app {A} (f : A -> bool) (l1 l2 : list A) :
  count f (l1 ++ l2) = (count f l1 + count f l2)%nat.
Proof. induction l1 as [|x l1 IH]; simpl; [reflexivity | rewrite IH; lia]. Qed.

Lemma append_assoc (x y z : string) : (x +:+ y) +:+ z = x +:+ y +:+ z.
Proof.
  induction x as [|c x IH]; [reflexivity |].
  change (String c ((x +:+ y) +:+ z) = String c (x +:+ y +:+ z)).
  f_equal. exact IH.
Qed.


Lemma Error_outputs_map (j : syncFromJob) :
  Error_outputs render j = map render (errors j).
Proof.
  unfold Error_outputs.
  enough (Hgen : forall es acc,
    fold_left (fun outputs err => (outputs ++ [render err])%list) es acc
    = (acc ++ map render es)%list) by apply (Hgen (errors j) []).
  induction es as [|e es IH]; intros acc; simpl.
  - symmetry. apply app_nil_r.
  - rewrite IH, <- app_assoc. reflexivity.
Qed.

(** C5. A job made by [newSyncFromJob] is not completed; after [Run] it is,
    whatever path the run took; the flag is set by the one deferred
    [markComplete] that runs after the body, and the body never touches it. *)
Theorem Run_marks_complete_once :
  (forall bk path rf del n, Completed (newSyncFromJob bk path rf del n) = false)
  /\ (forall s : St, Completed (job (Run E G s).2) = true)
  /\ (forall s : St,
        Run E G s =
        (tt, {| job := markComplete (job (Run_body E G s).2);
                world := world (Run_body E G s).2;
                trace := trace (Run_body E G s).2 |}))
  /\ (forall s : St, isComplete (job (Run_body E G s).2) = isComplete (job s)).
Proof.
  split; [reflexivity |]. split; [| split].
  - intros s. rewrite Run_is_body_then_mark. reflexivity.
  - apply Run_is_body_then_mark.
  - intros s. apply Run_body_fixed.
Qed.


(** C7. With the empty remote key [Run] makes no call at all: the trace and
    the world, so the local files, are as before, no error is added and the
    job is completed; a job without errors has [Error()] nil afterwards. *)
Theorem Run_empty_key (s : St) :
  Key (remoteFile (job s)) = EmptyString ->
  trace (Run E G s).2 = trace s
  /\ world (Run E G s).2 = world s
  /\ errors (job (Run E G s).2) = errors (job s)
  /\ Completed (job (Run E G s).2) = true
  /\ (errors (job s) = [] -> Error render (job (Run E G s).2) = None).
Proof.
  intros Hkey. unfold_run. rewrite Hkey. simpl.
  repeat split. intros Hnone. unfold Error. simpl. rewrite Hnone. reflexivity.
Qed.

Lemma Run_times_frame (n : nat) (s : St) :
  fixed_part (job (Run_times E G n s)) = fixed_part (job s).
Proof.
  induction n as [|n IH]; [reflexivity |].
  unfold Run_times in *. simpl. rewrite Run_frame_one. exact IH.
Qed.

(** C10. [Run] leaves the local path, the remote file, the delete flag, the
    bucket, the name and the type of the job as they were, on every path and
    after any number of runs; [ID()] and [Type()] answer the same. *)
Theorem Run_changes_only_flag_and_errors (n : nat) (s : St) :
  let j := job s in
  let j' := job (Run_times E G n s) in
  localPath j' = localPath j
  /\ remoteFile j' = remoteFile j
  /\ withDelete j' = withDelete j
  /\ b j' = b j
  /\ name j' = name j
  /\ t j' = t j
  /\ ID j' = ID j
  /\ Type_ j' = Type_ j.
Proof.
  intros j j'. pose proof (Run_times_frame n s) as Hfix.
  unfold fixed_part in Hfix. fold j j' in Hfix.
  unfold ID, Type_. inversion Hfix. repeat split; assumption.
Qed.

End SyncJob.

(** ** Removing a path *)

Section RemoveAll.

Lemma RemoveAll_ok_gone (files files' : gmap string Node) (path q : string) :
  os_RemoveAll files path = (None, files') ->
  under path q = true -> files' !! q = None.
Proof.
  unfold os_RemoveAll.
  destruct ((map_to_list _).*1) as [|k ks]; [| discriminate].
  intros [= <-] Hq. apply map_lookup_filter_None. right.
  intros x _. simpl. congruence.
Qed.

Lemma RemoveAll_absent (files : gmap string Node) (path : string) :
  (forall q, under path q = true -> files !! q = None) ->
  os_RemoveAll files path = (None, files).
Proof.
  intros Habs. unfold os_RemoveAll.
  assert (Hvic : filter (fun kv : string * Node => under path kv.1 = true) files = ∅).
  { apply map_eq. intros q. rewrite lookup_empty.
    apply map_lookup_filter_None.
    destruct (under path q) eqn:Hq; [left; auto | right; intros x _; simpl; congruence]. }
  rewrite Hvic, map_filter_empty, map_to_list_empty. simpl.
  f_equal. apply map_filter_id. intros q x Hx. simpl.
  destruct (under path q) eqn:Hq; [| reflexivity].
  rewrite (Habs q Hq) in Hx. discriminate.
Qed.

End RemoveAll.

(** ** The paths of [Run] past the existence check *)

Section SyncPaths.

Context {Remote : Type}.
Variable E : Bucket -> string -> World Remote -> (bool * option error) * World Remote.
Variable G : Bucket -> string -> string -> World Remote -> option error * World Remote.
Variable render : error -> string.

Lemma key_eqb_false (k : string) : k <> EmptyString -> String.eqb k EmptyString = false.
Proof. intros H. apply String.eqb_neq. exact H. Qed.

(** C1, amended. With a remote object that exists and a local file that can
    be read, [Run] calls [Get] once if the hex MD5 of the local content is not,
    character for character, the ETag without the quotes and blanks around it,
    and not at all if it is; in that case the world is as the existence check
    left it, no error is added and a job without errors has [Error()] nil. *)
Theorem Run_fetches_iff_checksums_differ (s : St) (w1 : World Remote) (n : Node) :
  Key (remoteFile (job s)) <> EmptyString ->
  E (b (job s)) (Key (remoteFile (job s))) (world s) = ((true, None), w1) ->
  fs w1 !! localPath (job s) = Some n ->
  isDir n = false ->
  readable n = true ->
  let j := job s in
  let same := checksums_equal (data n) (ETag (remoteFile j)) in
  let s' := (Run E G s).2 in
  fetch_calls (trace s') = (fetch_calls (trace s) + if same then 0 else 1)%nat
  /\ (same = false ->
      (exists msg, trace s' =
         (trace s ++ [CallExists (Key (remoteFile j)); CallStat (localPath j);
                      CallReadFile (localPath j); Log Debug msg;
                      CallGet (Key (remoteFile j)) (localPath j)])%list)
      /\ world s' = (G (b j) (Key (remoteFile j)) (localPath j) w1).2)
  /\ (same = true ->
      trace s' =
        (trace s ++ [CallExists (Key (remoteFile j)); CallStat (localPath j);
                     CallReadFile (localPath j)])%list
      /\ world s' = w1
      /\ errors (job s') = errors j
      /\ (errors j = [] -> Error render (job s') = None)).
Proof.
  intros Hkey HE Hnode Hdir Hread j same s'.
  subst s' same j. unfold checksums_equal, fetch_calls.
  unfold_run. rewrite (key_eqb_false _ Hkey), HE. simpl.
  unfold os_Stat, ioutil_ReadFile. simpl. rewrite Hnode. simpl.
  rewrite Hnode, Hdir, Hread. simpl.
  destruct (String.eqb _ _) eqn:Hsame; simpl.
  - rewrite !count_app. simpl. split; [lia |]. split; [discriminate |].
    intros _. rewrite <- !app_assoc. simpl. repeat split.
    intros Hnone. unfold Error. simpl. rewrite Hnone. reflexivity.
  - destruct (G _ _ _ _) as [[e|] w2] eqn:HG; simpl;
      rewrite !count_app; simpl; (split; [lia |]); (split; [| discriminate]);
      intros _; rewrite <- !app_assoc; simpl; split; eauto.
Qed.

(** After a failed read the run goes on with whatever bytes came back (none,
    for [ioutil_ReadFile] above): the read error is recorded first, and [Get]
    is called unless the ETag is the digest of those bytes. *)
Lemma Run_read_failure_goes_on (s : St) (w1 : World Remote) (content : string)
    (e : error) :
  Key (remoteFile (job s)) <> EmptyString ->
  E (b (job s)) (Key (remoteFile (job s))) (world s) = ((true, None), w1) ->
  os_Stat (fs w1) (localPath (job s)) = None ->
  ioutil_ReadFile (fs w1) (localPath (job s)) = (content, Some e) ->
  exists rest,
    errors (job (Run E G s).2) =
      (errors (job s)
       ++ withMessage e "problem reading file before hashing for sync operation"
       :: rest)%list
    /\ fetch_calls (trace (Run E G s).2) =
         (fetch_calls (trace s)
          + if checksums_equal content (ETag (remoteFile (job s))) then 0 else 1)%nat.
Proof.
  intros Hkey HE Hstat Hread. unfold checksums_equal, fetch_calls.
  unfold_run. rewrite (key_eqb_false _ Hkey), HE. simpl.
  rewrite Hstat. simpl. rewrite Hread. simpl.
  destruct (String.eqb _ _) eqn:Hsame; simpl.
  - exists []. rewrite !count_app. simpl. split; [reflexivity | lia].
  - destruct (G _ _ _ _) as [[ge|] w2]; simpl; rewrite !count_app; simpl.
    + eexists. rewrite <- app_assoc. simpl. split; [reflexivity | lia].
    + exists []. split; [reflexivity | lia].
Qed.

(** C2. A local file that cannot be read: the read error is recorded, and the
    run goes on to compare the digest of no bytes with the ETag and fetches. *)
Theorem unreadable_local_still_fetched :
  let j := scenario.hello_job (scenario.quoted "5d41402abc4b2a76b9719d911017c592") false in
  let w := mkWorld {[ "/srv/hello.txt" := mkNode false "hello" false true ]}
                   ({[ "dist/hello.txt" := "HELLO" ]} : gmap string string) in
  let s' := (Run scenario.stub_Exists scenario.stub_Get (scenario.start j w)).2 in
  errors (job s') =
    [withMessage (PathError "open" "/srv/hello.txt" EACCES)
       "problem reading file before hashing for sync operation"]
  /\ trace s' =
       [CallExists "dist/hello.txt"; CallStat "/srv/hello.txt";
        CallReadFile "/srv/hello.txt";
        Log Debug ("hashes aren't the same: [op=pull, file=dist/hello.txt, "
                   +:+ "local=d41d8cd98f00b204e9800998ecf8427e, remote="
                   +:+ "5d41402abc4b2a76b9719d911017c592]");
        CallGet "dist/hello.txt" "/srv/hello.txt"]
  /\ fs (world s') !! "/srv/hello.txt" = Some (mkNode false "HELLO" true true).
Proof. vm_compute. repeat split. Qed.

Lemma Run_delete_step (s : St) (w1 : World Remote) :
  Key (remoteFile (job s)) <> EmptyString ->
  E (b (job s)) (Key (remoteFile (job s))) (world s) = ((false, None), w1) ->
  withDelete (job s) = true ->
  dryRun (b (job s)) = false ->
  let j := job s in
  let s1 := (Run E G s).2 in
  let msg := "problem removing local file " +:+ localPath j
             +:+ ", during sync from bucket " +:+ bucketName (b j)
             +:+ " with delete" in
  (exists log, trace s1 =
     (trace s ++ CallExists (Key (remoteFile j)) :: CallRemoveAll (localPath j) :: log)%list
     /\ count is_CallGet log = 0%nat /\ count is_CallRemoveAll log = 0%nat)
  /\ fs (world s1) = (os_RemoveAll (fs w1) (localPath j)).2
  /\ errors (job s1) =
       match (os_RemoveAll (fs w1) (localPath j)).1 with
       | Some e => (errors j ++ [withMessage e msg])%list
       | None => errors j
       end.
Proof.
  intros Hkey HE Hdel Hdry j s1 msg. subst s1 msg j.
  unfold_run. rewrite (key_eqb_false _ Hkey), HE, Hdel, Hdry. simpl.
  destruct (os_RemoveAll _ _) as [[e|] files]; simpl;
    rewrite <- !app_assoc; simpl; repeat split; eexists; repeat split; reflexivity.
Qed.

(** C8. Remote object gone, delete-mode on, dry-run off: [Run] calls
    [os.RemoveAll] on the local path; when it succeeds nothing is left at or
    below the path and no error is added; when it fails the wrapped error is
    recorded; on a path that is already absent it succeeds and changes
    nothing, so a second run after a successful one adds no error. *)
Theorem Run_delete_mode_removes (s : St) (w1 : World Remote) :
  Key (remoteFile (job s)) <> EmptyString ->
  E (b (job s)) (Key (remoteFile (job s))) (world s) = ((false, None), w1) ->
  withDelete (job s) = true ->
  dryRun (b (job s)) = false ->
  let j := job s in
  let s1 := (Run E G s).2 in
  let removal := os_RemoveAll (fs w1) (localPath j) in
  count is_CallRemoveAll (trace s1) = (count is_CallRemoveAll (trace s) + 1)%nat
  /\ fs (world s1) = removal.2
  /\ (removal.1 = None ->
      errors (job s1) = errors j
      /\ forall q, under (localPath j) q = true -> fs (world s1) !! q = None)
  /\ (forall e, removal.1 = Some e ->
      errors (job s1) =
        (errors j ++ [withMessage e
           ("problem removing local file " +:+ localPath j
            +:+ ", during sync from bucket " +:+ bucketName (b j)
            +:+ " with delete")])%list)
  /\ ((forall q, under (localPath j) q = true -> fs w1 !! q = None) ->
      errors (job s1) = errors j /\ fs (world s1) = fs w1)
  /\ (forall w2,
      removal.1 = None ->
      E (b j) (Key (remoteFile j)) (world s1) = ((false, None), w2) ->
      fs w2 = fs (world s1) ->
      errors (job (Run E G s1).2) = errors (job s1)
      /\ fs (world (Run E G s1).2) = fs (world s1)).
Proof.
  intros Hkey HE Hdel Hdry j s1 removal.
  destruct (Run_delete_step s w1 Hkey HE Hdel Hdry)
    as [[log [Htr [_ Hlog]]] [Hfs Herr]].
  fold j s1 removal in Htr, Hfs, Herr.
  assert (Hgone : removal.1 = None ->
            forall q, under (localPath j) q = true -> fs (world s1) !! q = None).
  { intros Hok q Hq. rewrite Hfs. subst removal.
    destruct (os_RemoveAll (fs w1) (localPath j)) as [r files] eqn:Hrm.
    simpl in Hok. subst r. simpl.
    apply (RemoveAll_ok_gone (fs w1) files (localPath j)); assumption. }
  split.
  { rewrite Htr, count_app. simpl. rewrite Hlog. reflexivity. }
  split; [exact Hfs |]. split.
  { intros Hok. rewrite Hok in Herr. auto. }
  split.
  { intros e He. rewrite He in Herr. exact Herr. }
  split.
  { intros Habs. pose proof (RemoveAll_absent _ _ Habs) as Hrm.
    fold removal in Hrm. rewrite Hrm in Herr, Hfs. auto. }
  intros w2 Hok HE2 Hw2.
  pose proof (Run_frame_one E G s) as Hfix. fold s1 in Hfix.
  unfold fixed_part in Hfix. fold j in Hfix. inversion Hfix as [[Hd Hr Hb Ht Hp Hn]].
  assert (Hkey2 : Key (remoteFile (job s1)) <> EmptyString) by (rewrite Hr; exact Hkey).
  assert (HE2' : E (b (job s1)) (Key (remoteFile (job s1))) (world s1) = ((false, None), w2))
    by (rewrite Hb, Hr; exact HE2).
  assert (Hdel2 : withDelete (job s1) = true) by (rewrite Hd; exact Hdel).
  assert (Hdry2 : dryRun (b (job s1)) = false) by (rewrite Hb; exact Hdry).
  destruct (Run_delete_step s1 w2 Hkey2 HE2' Hdel2 Hdry2) as [_ [Hfs2 Herr2]].
  assert (Hrm : os_RemoveAll (fs w2) (localPath (job s1)) = (None, fs w2)).
  { apply RemoveAll_absent. intros q Hq. rewrite Hw2. apply Hgone; [exact Hok |].
    rewrite <- Hp. exact Hq. }
  rewrite Hrm in Hfs2, Herr2. simpl in *. rewrite Hfs2, Herr2. auto.
Qed.

End SyncPaths.

(** ** The sync job on the stub *)

Section SyncInstances.

Import scenario.

Let lower_etag : string := quoted "5d41402abc4b2a76b9719d911017c592".
Let upper_etag : string := "5D41402ABC4B2A76B9719D911017C592".

(** The scenario of the specification: the local file holds hello and the
    ETag is its quoted digest; no fetch. *)
Lemma Run_fetches_iff_checksums_differ_witness :
  let s := start (hello_job lower_etag false) hello_world in
  checksums_equal "hello" lower_etag = true
  /\ fetch_calls (trace (Run stub_Exists stub_Get s).2) = 0%nat
  /\ Error render (job (Run stub_Exists stub_Get s).2) = None.
Proof.
  intros s.
  pose proof (Run_fetches_iff_checksums_differ stub_Exists stub_Get render s
                hello_world (mkNode false "hello" true true)) as H.
  assert (Hkey : Key (remoteFile (job s)) <> EmptyString) by discriminate.
  specialize (H Hkey eq_refl eq_refl eq_refl eq_refl).
  cbv zeta in H. destruct H as [Hcount [_ Hsame]].
  assert (Heq : checksums_equal "hello" lower_etag = true) by (vm_compute; reflexivity).
  split; [exact Heq |]. split.
  - rewrite Hcount. vm_compute. reflexivity.
  - apply Hsame; [exact Heq | reflexivity].
Defined.

(** An ETag in capitals equals the local digest once case is ignored, and the
    file is fetched all the same. *)
Lemma uppercase_etag_is_fetched :
  let j := hello_job upper_etag false in
  let s := start j hello_world in
  Key (remoteFile j) <> EmptyString
  /\ stub_Exists (b j) (Key (remoteFile j)) hello_world = ((true, None), hello_world)
  /\ ioutil_ReadFile (fs hello_world) (localPath j) = ("hello", None)
  /\ spec_checksums_equal "hello" (ETag (remoteFile j)) = true
  /\ fetch_calls (trace (Run stub_Exists stub_Get s).2) = 1%nat.
Proof.
  intros j s. split; [discriminate |]. vm_compute. repeat split.
Qed.

Lemma Run_empty_key_witness :
  let j := newSyncFromJob (mkBucket "releases" false) "/srv/hello.txt"
             (mkKey EmptyString EmptyString 0 EmptyString EmptyString) true 3 in
  let s := start j hello_world in
  trace (Run stub_Exists stub_Get s).2 = []
  /\ world (Run stub_Exists stub_Get s).2 = hello_world
  /\ errors (job (Run stub_Exists stub_Get s).2) = []
  /\ Completed (job (Run stub_Exists stub_Get s).2) = true
  /\ Error render (job (Run stub_Exists stub_Get s).2) = None.
Proof.
  intros j s.
  destruct (Run_empty_key stub_Exists stub_Get render s eq_refl)
    as [Htr [Hw [Herr [Hdone Hnil]]]].
  split; [exact Htr |]. split; [exact Hw |]. split; [exact Herr |].
  split; [exact Hdone |]. exact (Hnil eq_refl).
Defined.

(** The remote object is gone: the local file and what lies below its path
    are removed, and a second run finds nothing to do. *)
Lemma Run_delete_mode_removes_witness :
  let w := mkWorld {[ "/srv/hello.txt" := mkNode false "hello" true true ]}
                   (∅ : gmap string string) in
  let s := start (hello_job lower_etag false) w in
  let s1 := (Run stub_Exists stub_Get s).2 in
  fs (world s1) !! "/srv/hello.txt" = None
  /\ errors (job s1) = []
  /\ errors (job (Run stub_Exists stub_Get s1).2) = errors (job s1).
Proof.
  intros w s s1.
  assert (Hkey : Key (remoteFile (job s)) <> EmptyString) by discriminate.
  pose proof (Run_delete_mode_removes stub_Exists stub_Get s w
                Hkey eq_refl eq_refl eq_refl) as H.
  cbv zeta in H. fold s1 in H.
  destruct H as [_ [Hfs [Hok [_ [_ Hagain]]]]].
  assert (Hnil : (os_RemoveAll (fs w) (localPath (job s))).1 = None)
    by (vm_compute; reflexivity).
  destruct (Hok Hnil) as [Herr Hgone].
  split; [apply Hgone; vm_compute; reflexivity |].
  split; [exact Herr |].
  apply (Hagain (world s1) Hnil); vm_compute; reflexivity.
Defined.

End SyncInstances.

(** * Properties of the repository build *)

Section BuildFacts.

Import repobuilder.

Context {RepositoryConfig MongoDBVersion W : Type}.
Variable exec : list string -> W -> (string * option error) * W.
Variable signFile :
  Job (RepositoryConfig := RepositoryConfig) (MongoDBVersion := MongoDBVersion)
  -> string -> string -> bool -> W -> option error * W.
Variable buildIndex : RepositoryConfig -> string -> string -> W -> option error * W.

Local Abbreviation step := (step exec signFile buildIndex).
Local Abbreviation run_thread := (run_thread exec signFile buildIndex).
Local Abbreviation turn := (turn exec signFile buildIndex).
Local Abbreviation run_schedule := (run_schedule exec signFile buildIndex).
Local Abbreviation rebuildRepo := (rebuildRepo exec signFile buildIndex).
Local Abbreviation stable := (stable exec signFile buildIndex).
Local Abbreviation exec_returned := (exec_returned exec signFile buildIndex).
Local Abbreviation State :=
  (St (RepositoryConfig := RepositoryConfig) (MongoDBVersion := MongoDBVersion) (W := W)).

Ltac unfold_step :=
  cbv [repobuilder.step repobuilder.rebuildRepo rebuildRepo_body on_world emit
       on_job self wg_Done store_Output mbind mret M_bind M_ret].

Ltac split_step :=
  repeat match goal with
    | |- context [exec ?a ?w] => destruct (exec a w) as [[? ?] ?] eqn:?; simpl
    | |- context [signFile ?j ?f ?e ?o ?w] =>
        destruct (signFile j f e o w) as [? ?] eqn:?; simpl
    | |- context [buildIndex ?c ?d ?bk ?w] =>
        destruct (buildIndex c d bk w) as [? ?] eqn:?; simpl
    | |- context [match ?x with _ => _ end] =>
        lazymatch type of x with
        | bool => destruct x eqn:?; simpl
        | option _ => destruct x eqn:?; simpl
        end
    end.

(** The function and its cut into stops agree. *)
Lemma rebuildRepo_run_thread (workingDir : string) (s : State) :
  rebuildRepo workingDir s = (tt, (run_thread 7 workingDir AtStart s).2)
  /\ (run_thread 7 workingDir AtStart s).1 = Returned.
Proof.
  unfold repobuilder.run_thread. unfold_step. split_step; split; reflexivity.
Qed.

Lemma step_rank (workingDir : string) (p : pc) (s : State) :
  (rank (step workingDir p s).1 <= pred (rank p))%nat.
Proof.
  destruct p; unfold_step; split_step; simpl; lia.
Qed.

Arguments repobuilder.names_dir : simpl never.

Lemma eqb_append_same (pre x y : string) :
  String.eqb (pre +:+ x) (pre +:+ y) = String.eqb x y.
Proof.
  induction pre as [|c pre IH]; [reflexivity |].
  change (String.eqb (String c (pre +:+ x)) (String c (pre +:+ y)) = String.eqb x y).
  simpl. rewrite Ascii.eqb_refl. exact IH.
Qed.

Lemma names_dir_other (d d' : string) (cause : error) :
  d <> d' ->
  names_dir d (withMessage cause (createrepo_msg d')) = false
  /\ names_dir d (withMessage cause (sign_msg d')) = false
  /\ names_dir d (withMessage cause (index_msg d')) = false.
Proof.
  intros Hne. assert (Hb : String.eqb d' d = false) by (apply String.eqb_neq; congruence).
  unfold names_dir, createrepo_msg, sign_msg, index_msg.
  rewrite !eqb_append_same, Hb. repeat split; reflexivity.
Qed.

Lemma names_dir_own (d : string) (cause : error) :
  names_dir d (withMessage cause (createrepo_msg d)) = true.
Proof. unfold names_dir. rewrite String.eqb_refl. reflexivity. Qed.

Lemma errors_naming_snoc (d : string) (es : list error) (e : error) :
  errors_naming d (es ++ [e]) =
  (errors_naming d es ++ if names_dir d e then [e] else [])%list.
Proof. unfold errors_naming. rewrite List.filter_app. simpl. destruct (names_dir d e); reflexivity. Qed.

Lemma stage_calls_snoc (d who : string) (tr : list (string * Event)) (ev : Event) :
  stage_calls d (tr ++ [(who, ev)]) =
  (stage_calls d tr ++ if String.eqb who d && is_stage_call ev then [(who, ev)] else [])%list.
Proof.
  unfold stage_calls. rewrite List.filter_app. simpl.
  destruct (String.eqb who d && is_stage_call ev); reflexivity.
Qed.

(** A pipeline leaves alone what the pipeline of another directory sees. *)
Lemma step_frame (d d' : string) (p : pc) (s : State) :
  d <> d' -> view d (step d' p s).2 = view d s.
Proof.
  intros Hne.
  assert (Hb : String.eqb d' d = false) by (apply String.eqb_neq; congruence).
  destruct p; unfold_step; split_step; unfold view; simpl;
    rewrite ?errors_naming_snoc, ?stage_calls_snoc, ?Hb; simpl;
    repeat match goal with
      | |- context [names_dir d (withMessage ?c (?m d'))] =>
          let H1 := fresh in
          let H2 := fresh in
          let H3 := fresh in
          destruct (names_dir_other d d' c Hne) as [H1 [H2 H3]];
          rewrite ?H1, ?H2, ?H3
      end.
  all: rewrite ?app_nil_r, ?lookup_insert_ne by congruence; try reflexivity.
Qed.

(** ** Invariants of one pipeline among the others *)

Lemma turn_keeps (d : string) (P : pc -> View -> Prop)
    (pool : list (string * pc)) (s : State) (i k : nat) (p : pc) :
  stable d P ->
  NoDup pool.*1 ->
  pool !! i = Some (d, p) ->
  P p (view d s) ->
  exists p',
    (turn (pool, s) k).1 !! i = Some (d, p')
    /\ P p' (view d (turn (pool, s) k).2)
    /\ (turn (pool, s) k).1.*1 = pool.*1.
Proof.
  intros Hst Hnd Hi HP. unfold repobuilder.turn. simpl.
  destruct (pool !! k) as [[d' q]|] eqn:Hk; simpl; [| eauto].
  destruct (step d' q s) as [q' s'] eqn:Hstep. simpl.
  assert (Hfst : (<[k := (d', q')]> pool).*1 = pool.*1).
  { rewrite list_fmap_insert. simpl. apply list_insert_id.
    rewrite list_lookup_fmap, Hk. reflexivity. }
  destruct (decide (k = i)) as [-> | Hki].
  - rewrite Hi in Hk. injection Hk as <- <-.
    exists q'. split; [| split; [| exact Hfst]].
    + apply list_lookup_insert_eq. eapply lookup_lt_Some. exact Hi.
    + specialize (Hst p s HP). rewrite Hstep in Hst. exact Hst.
  - exists p. split; [| split; [| exact Hfst]].
    + rewrite list_lookup_insert_ne by exact Hki. exact Hi.
    + assert (Hdd : d <> d').
      { intros ->. apply Hki.
        apply (NoDup_lookup pool.*1 k i d' Hnd);
          rewrite list_lookup_fmap; [rewrite Hk | rewrite Hi]; reflexivity. }
      pose proof (step_frame d d' q s Hdd) as Hfr. rewrite Hstep in Hfr.
      simpl in Hfr. rewrite Hfr. exact HP.
Qed.

Lemma run_schedule_keeps (d : string) (P : pc -> View -> Prop) (sched : list nat) :
  stable d P ->
  forall (pool : list (string * pc)) (s : State) (i : nat) (p : pc),
    NoDup pool.*1 ->
    pool !! i = Some (d, p) ->
    P p (view d s) ->
    exists p',
      (run_schedule sched (pool, s)).1 !! i = Some (d, p')
      /\ P p' (view d (run_schedule sched (pool, s)).2).
Proof.
  intros Hst. induction sched as [|k sched IH]; intros pool s i p Hnd Hi HP.
  - exists p. auto.
  - destruct (turn_keeps d P pool s i k p Hst Hnd Hi HP) as [p1 [Hi1 [HP1 Hfst]]].
    unfold repobuilder.run_schedule. simpl.
    destruct (turn (pool, s) k) as [pool1 s1] eqn:Hturn. simpl in *.
    apply (IH pool1 s1 i p1); [rewrite Hfst; exact Hnd | exact Hi1 | exact HP1].
Qed.

Lemma spawn_lookup (dirs : list string) (d : string) :
  d ∈ dirs -> exists i, spawn dirs !! i = Some (d, AtStart).
Proof.
  intros Hin. apply list_elem_of_lookup_1 in Hin as [i Hi]. exists i.
  unfold spawn. change (map ?f ?l) with (f <$> l).
  rewrite list_lookup_fmap, Hi. reflexivity.
Qed.

Lemma spawn_dirs (dirs : list string) : (spawn dirs).*1 = dirs.
Proof.
  unfold spawn. induction dirs as [|d dirs IH]; [reflexivity |].
  simpl. f_equal. exact IH.
Qed.

Lemma all_returned_lookup (pool : list (string * pc)) (i : nat) (d : string) (p : pc) :
  all_returned pool = true -> pool !! i = Some (d, p) -> p = Returned.
Proof.
  unfold all_returned. intros Hall Hi.
  rewrite forallb_forall in Hall.
  assert (Hin : In (d, p) pool).
  { apply list_elem_of_In. eapply list_elem_of_lookup_2. exact Hi. }
  specialize (Hall _ Hin). simpl in Hall. destruct p; try discriminate. reflexivity.
Qed.

Ltac view_simpl :=
  unfold view; simpl;
  rewrite ?errors_naming_snoc, ?stage_calls_snoc, ?names_dir_own; simpl;
  rewrite ?andb_false_r, ?app_nil_r.

Lemma untouched_stable (d : string) (v0 : View) : stable d (untouched_inv v0).
Proof.
  intros p s Hp.
  destruct p; simpl in Hp; unfold_step; simpl; split_step; simpl;
    try exact I; rewrite <- Hp; view_simpl; reflexivity.
Qed.

Lemma failed_stable (d : string) (v0 : View) (out : string) (e : error) :
  stable d (failed_inv d v0 out e).
Proof.
  intros p s Hp. destruct p; simpl in Hp; try contradiction.
  - destruct Hp as [-> [-> Hv]]. unfold_step. simpl.
    rewrite <- Hv. view_simpl. reflexivity.
  - unfold_step. simpl. exact Hp.
Qed.

Lemma succeeded_stable (d out : string) : stable d (succeeded_inv out).
Proof.
  intros p s Hp. destruct p; simpl in Hp; try contradiction.
  - destruct Hp as [-> ->]. unfold_step. simpl. reflexivity.
  - subst output. unfold_step. simpl. apply lookup_insert_eq.
  - unfold_step. destruct (signFile _ _ _ _ _) as [err w']. simpl. exact Hp.
  - unfold_step. destruct err as [e|]; simpl; exact Hp.
  - unfold_step. destruct (buildIndex _ _ _ _) as [err w']. simpl. exact Hp.
  - unfold_step. destruct err as [e|]; simpl; exact Hp.
  - unfold_step. simpl. exact Hp.
Qed.

Lemma turn_dirs (pool : list (string * pc)) (s : State) (k : nat) :
  (turn (pool, s) k).1.*1 = pool.*1.
Proof.
  unfold repobuilder.turn. simpl.
  destruct (pool !! k) as [[d q]|] eqn:Hk; simpl; [| reflexivity].
  destruct (step d q s) as [q' s']. simpl.
  rewrite list_fmap_insert. simpl. apply list_insert_id.
  rewrite list_lookup_fmap, Hk. reflexivity.
Qed.

Lemma run_schedule_dirs (sched : list nat) :
  forall (pool : list (string * pc)) (s : State),
    (run_schedule sched (pool, s)).1.*1 = pool.*1.
Proof.
  induction sched as [|k sched IH]; intros pool s; [reflexivity |].
  unfold repobuilder.run_schedule. simpl.
  pose proof (turn_dirs pool s k) as Hturn.
  destruct (turn (pool, s) k) as [pool1 s1]. simpl in Hturn.
  fold (run_schedule sched (pool1, s1)). rewrite IH. exact Hturn.
Qed.

Lemma run_schedule_app (l1 l2 : list nat) (ps : list (string * pc) * State) :
  run_schedule (l1 ++ l2) ps = run_schedule l2 (run_schedule l1 ps).
Proof. unfold repobuilder.run_schedule. apply fold_left_app. Qed.

(** Right after its own call a pipeline stands at the stop that holds the
    result, and has changed nothing that it can see. *)
Lemma after_own_call (dirs : list string) (s0 : State) (sched : list nat)
    (d : string) (n i : nat) :
  NoDup dirs ->
  DryRun (job s0) = false ->
  sched !! n = Some i ->
  (run_schedule (take n sched) (spawn dirs, s0)).1 !! i = Some (d, AtStart) ->
  let r := (exec (cmd_Args d)
              (world (run_schedule (take n sched) (spawn dirs, s0)).2)).1 in
  (run_schedule (take (S n) sched) (spawn dirs, s0)).1 !! i
    = Some (d, AfterExec r.1 r.2)
  /\ view d (run_schedule (take (S n) sched) (spawn dirs, s0)).2 = view d s0
  /\ NoDup (run_schedule (take (S n) sched) (spawn dirs, s0)).1.*1.
Proof.
  intros Hnd Hdry Hn Hi r. subst r.
  assert (Hnd' : NoDup (spawn dirs).*1) by (rewrite spawn_dirs; exact Hnd).
  assert (Hstart : spawn dirs !! i = Some (d, AtStart)).
  { assert (Hd : dirs !! i = Some d).
    { rewrite <- (spawn_dirs dirs), <- (run_schedule_dirs (take n sched) (spawn dirs) s0).
      rewrite list_lookup_fmap, Hi. reflexivity. }
    unfold spawn. change (map ?f ?l) with (f <$> l).
    rewrite list_lookup_fmap, Hd. reflexivity. }
  destruct (run_schedule_keeps d (untouched_inv (view d s0)) (take n sched)
              (untouched_stable d (view d s0)) (spawn dirs) s0 i AtStart
              Hnd' Hstart eq_refl) as [p [Hp Hview]].
  rewrite Hi in Hp. injection Hp as <-. simpl in Hview.
  rewrite (take_S_r sched n i Hn), run_schedule_app.
  assert (Hdirs : (run_schedule (take n sched) (spawn dirs, s0)).1.*1 = (spawn dirs).*1)
    by apply run_schedule_dirs.
  destruct (run_schedule (take n sched) (spawn dirs, s0)) as [pool s] eqn:Hmid.
  simpl in *.
  assert (Hdry' : DryRun (job s) = false).
  { rewrite <- Hdry. exact (f_equal v_dry Hview). }
  unfold repobuilder.run_schedule. simpl. unfold repobuilder.turn. simpl. rewrite Hi.
  unfold_step. rewrite Hdry'. simpl.
  destruct (exec (cmd_Args d) (world s)) as [[out err] w']. simpl.
  split; [| split].
  - apply list_lookup_insert_eq. eapply lookup_lt_Some. exact Hi.
  - rewrite <- Hview. view_simpl. reflexivity.
  - rewrite list_fmap_insert. simpl. rewrite list_insert_id.
    + rewrite Hdirs. exact Hnd'.
    + rewrite list_lookup_fmap, Hi. reflexivity.
Qed.

(** A pipeline that has returned was scheduled while it stood at the start. *)
Lemma returned_was_called (sched : list nat) :
  forall (pool : list (string * pc)) (s : State) (i : nat) (d : string),
    pool !! i = Some (d, AtStart) ->
    (run_schedule sched (pool, s)).1 !! i = Some (d, Returned) ->
    exists n,
      sched !! n = Some i
      /\ (run_schedule (take n sched) (pool, s)).1 !! i = Some (d, AtStart).
Proof.
  induction sched as [|k sched IH]; intros pool s i d Hi Hfin.
  - simpl in Hfin. rewrite Hi in Hfin. discriminate.
  - destruct (decide (k = i)) as [-> | Hne].
    + exists 0%nat. split; [reflexivity | exact Hi].
    + unfold repobuilder.run_schedule in Hfin. simpl in Hfin.
      assert (Hi1 : (turn (pool, s) k).1 !! i = Some (d, AtStart)).
      { unfold repobuilder.turn. simpl.
        destruct (pool !! k) as [[d' q]|]; simpl; [| exact Hi].
        destruct (step d' q s) as [q' s']. simpl.
        rewrite list_lookup_insert_ne by exact Hne. exact Hi. }
      destruct (turn (pool, s) k) as [pool1 s1] eqn:Hturn. simpl in Hi1.
      destruct (IH pool1 s1 i d Hi1 Hfin) as [n [Hn Hmid]].
      exists (S n). split; [exact Hn |].
      unfold repobuilder.run_schedule. simpl. rewrite Hturn. exact Hmid.
Qed.

(** ** Every pipeline returns *)

Lemma turn_length (pool : list (string * pc)) (s : State) (k : nat) :
  length (turn (pool, s) k).1 = length pool.
Proof.
  unfold repobuilder.turn. simpl. destruct (pool !! k) as [[d q]|]; [| reflexivity].
  destruct (step d q s). simpl. apply length_insert.
Qed.

Lemma turn_remaining (pool : list (string * pc)) (s : State) (k i : nat) :
  (remaining (turn (pool, s) k).1 i <= remaining pool i)%nat
  /\ (i = k -> (remaining (turn (pool, s) k).1 i <= pred (remaining pool i))%nat).
Proof.
  unfold repobuilder.turn, remaining. simpl.
  destruct (pool !! k) as [[d q]|] eqn:Hk; simpl.
  - pose proof (step_rank d q s) as Hrank.
    destruct (step d q s) as [q' s']. simpl in *.
    destruct (decide (k = i)) as [-> | Hne].
    + rewrite list_lookup_insert_eq by (eapply lookup_lt_Some; exact Hk).
      rewrite Hk. simpl. split; [lia | intros _; exact Hrank].
    + rewrite list_lookup_insert_ne by exact Hne.
      split; [lia | intros ->; contradiction].
  - split; [lia |]. intros ->. rewrite Hk. simpl. lia.
Qed.

Lemma round_remaining (sched : list nat) :
  forall (pool : list (string * pc)) (s : State) (i : nat),
    length (run_schedule sched (pool, s)).1 = length pool
    /\ (remaining (run_schedule sched (pool, s)).1 i <= remaining pool i)%nat
    /\ (i ∈ sched ->
        (remaining (run_schedule sched (pool, s)).1 i <= pred (remaining pool i))%nat).
Proof.
  induction sched as [|k sched IH]; intros pool s i.
  - simpl. split; [reflexivity |]. split; [lia |]. intros Hin. inversion Hin.
  - unfold repobuilder.run_schedule. simpl.
    pose proof (turn_length pool s k) as Hlen.
    destruct (turn_remaining pool s k i) as [Hle Hk].
    destruct (turn (pool, s) k) as [pool1 s1]. simpl in *.
    destruct (IH pool1 s1 i) as [Hlen' [Hle' Hin']].
    fold (run_schedule sched (pool1, s1)).
    split; [lia |]. split; [lia |].
    intros Hin. apply elem_of_cons in Hin as [-> | Hin].
    + specialize (Hk eq_refl). lia.
    + specialize (Hin' Hin). lia.
Qed.

Lemma rounds_return (m : nat) :
  forall (pool : list (string * pc)) (s : State),
    (forall i, (remaining pool i <= m)%nat) ->
    forall i,
      remaining (run_schedule (concat (replicate m (seq 0 (length pool)))) (pool, s)).1 i
      = 0%nat.
Proof.
  induction m as [|m IH]; intros pool s Hm i.
  - simpl. specialize (Hm i). simpl. lia.
  - simpl. unfold repobuilder.run_schedule. rewrite fold_left_app.
    fold (run_schedule (seq 0 (length pool)) (pool, s)).
    destruct (run_schedule (seq 0 (length pool)) (pool, s)) as [pool1 s1] eqn:Hround.
    assert (Hlen : length pool1 = length pool).
    { pose proof (round_remaining (seq 0 (length pool)) pool s 0) as [Hl _].
      rewrite Hround in Hl. exact Hl. }
    rewrite <- Hlen. apply (IH pool1 s1). intros k.
    destruct (round_remaining (seq 0 (length pool)) pool s k) as [_ [Hle Hin]].
    rewrite Hround in Hle, Hin. simpl in Hle, Hin.
    destruct (decide (k < length pool)%nat) as [Hlt | Hge].
    + assert (Hk : k ∈ seq 0 (length pool)) by (apply elem_of_seq; lia).
      specialize (Hin Hk). specialize (Hm k). lia.
    + unfold remaining. rewrite lookup_ge_None_2 by lia. lia.
Qed.

Lemma remaining_spawn (dirs : list string) (i : nat) :
  (remaining (spawn dirs) i <= 7)%nat.
Proof.
  unfold remaining, spawn. change (map ?f ?l) with (f <$> l).
  rewrite list_lookup_fmap. destruct (dirs !! i); simpl; lia.
Qed.

Lemma round_robin_returns (dirs : list string) (s : State) :
  all_returned (run_schedule (round_robin (length dirs)) (spawn dirs, s)).1 = true.
Proof.
  unfold all_returned. apply forallb_forall. intros [d p] Hin.
  apply list_elem_of_In, list_elem_of_lookup_1 in Hin as [i Hi].
  pose proof (rounds_return 7 (spawn dirs) s (remaining_spawn dirs) i) as Hz.
  assert (Hlen : length (spawn dirs) = length dirs) by apply length_map.
  rewrite Hlen in Hz. fold (round_robin (length dirs)) in Hz.
  unfold remaining in Hz. rewrite Hi in Hz. simpl in *.
  destruct p; simpl in Hz; try discriminate. reflexivity.
Qed.

(** ** The failing indexer *)

Lemma rebuildRepo_exec_fails (d : string) (s : State) :
  DryRun (job s) = false ->
  (exec (cmd_Args d) (world s)).1.2 <> None ->
  exists cause,
    (exec (cmd_Args d) (world s)).1.2 = Some cause
    /\ Errors (job (rebuildRepo d s).2) =
         (Errors (job s) ++ [withMessage cause (createrepo_msg d)])%list
    /\ Output (job (rebuildRepo d s).2) = Output (job s)
    /\ stage_calls d (trace (rebuildRepo d s).2) = stage_calls d (trace s).
Proof.
  intros Hdry Hfail. unfold_step. rewrite Hdry. simpl.
  destruct (exec (cmd_Args d) (world s)) as [[out [cause|]] w'] eqn:He;
    simpl in *; [| contradiction].
  exists cause. repeat split.
  rewrite !stage_calls_snoc. simpl. rewrite !andb_false_r, !app_nil_r. reflexivity.
Qed.

(** What a schedule makes of a pipeline from its own call on: the schedule
    is the turns up to and with the call, then the rest. *)
Lemma run_schedule_cut (sched : list nat) (n : nat) (ps : list (string * pc) * State) :
  run_schedule sched ps
    = run_schedule (drop (S n) sched) (run_schedule (take (S n) sched) ps).
Proof. rewrite <- run_schedule_app, take_drop. reflexivity. Qed.

Lemma exec_returned_fate (dirs : list string) (s0 : State) (sched : list nat)
    (d : string) (r : string * option error)
    (inv : pc -> View -> Prop) :
  NoDup dirs ->
  DryRun (job s0) = false ->
  stable d inv ->
  (forall v, v = view d s0 -> inv (AfterExec r.1 r.2) v) ->
  all_returned (run_schedule sched (spawn dirs, s0)).1 = true ->
  exec_returned sched dirs s0 d r ->
  inv Returned (view d (run_schedule sched (spawn dirs, s0)).2).
Proof.
  intros Hnd Hdry Hstable Hinit Hall [n [i [Hn [Hi Hr]]]].
  destruct (after_own_call dirs s0 sched d n i Hnd Hdry Hn Hi) as [Hp [Hview Hnd1]].
  rewrite Hr in Hp.
  rewrite (run_schedule_cut sched n) in Hall |- *.
  destruct (run_schedule (take (S n) sched) (spawn dirs, s0)) as [pool1 s1].
  simpl in Hp, Hview, Hnd1.
  destruct (run_schedule_keeps d inv (drop (S n) sched) Hstable pool1 s1 i
              (AfterExec r.1 r.2) Hnd1 Hp (Hinit _ Hview)) as [q [Hq Hinv]].
  rewrite (all_returned_lookup _ i d q Hall Hq) in Hinv. exact Hinv.
Qed.

(** C4. A real run in which the indexer fails for one working directory.
    [rebuildRepo] on that directory, when its call of the subprocess returns
    an error, appends the one createrepo error that wraps it and names the
    directory, leaves the output map alone and makes no sign or index call.
    With the pipelines of distinct directories run side by side, in whatever
    order their stops are scheduled: every pipeline returns under round-robin
    scheduling; once all have returned, every pipeline has made its own call
    of the subprocess; if the call that the pipeline of the directory made
    returned an error, on the machine as it was at that turn, the errors that
    name the directory are those from before and that one error, its output
    entry and its sign and index calls are as before; and each other
    directory whose own call returned no error has the output of that call
    in the map. *)
Theorem failed_indexer_is_isolated (dirs : list string) (s0 : State) (d : string) :
  NoDup dirs ->
  DryRun (job s0) = false ->
  (forall out e,
     (exec (cmd_Args d) (world s0)).1 = (out, Some e) ->
     Errors (job (rebuildRepo d s0).2) =
       (Errors (job s0) ++ [withMessage e (createrepo_msg d)])%list
     /\ Output (job (rebuildRepo d s0).2) = Output (job s0)
     /\ stage_calls d (trace (rebuildRepo d s0).2) = stage_calls d (trace s0))
  /\ all_returned (run_schedule (round_robin (length dirs)) (spawn dirs, s0)).1 = true
  /\ forall sched : list nat,
       all_returned (run_schedule sched (spawn dirs, s0)).1 = true ->
       (forall d', d' ∈ dirs -> exists r, exec_returned sched dirs s0 d' r)
       /\ forall out e,
            exec_returned sched dirs s0 d (out, Some e) ->
            errors_naming d (Errors (job (run_schedule sched (spawn dirs, s0)).2)) =
              (errors_naming d (Errors (job s0))
               ++ [withMessage e (createrepo_msg d)])%list
            /\ Output (job (run_schedule sched (spawn dirs, s0)).2) !! d
               = Output (job s0) !! d
            /\ stage_calls d (trace (run_schedule sched (spawn dirs, s0)).2)
               = stage_calls d (trace s0)
            /\ forall d' out',
                 d' <> d ->
                 exec_returned sched dirs s0 d' (out', None) ->
                 Output (job (run_schedule sched (spawn dirs, s0)).2) !! d' = Some out'.
Proof.
  intros Hnd Hdry. split; [| split].
  - intros out e He.
    assert (Hfail : (exec (cmd_Args d) (world s0)).1.2 <> None)
      by (rewrite He; discriminate).
    destruct (rebuildRepo_exec_fails d s0 Hdry Hfail) as [cause [Hcause H]].
    rewrite He in Hcause. injection Hcause as <-. exact H.
  - apply round_robin_returns.
  - intros sched Hall. split.
    + intros d' Hin'.
      destruct (spawn_lookup dirs d' Hin') as [k Hk].
      assert (Hfin : (run_schedule sched (spawn dirs, s0)).1 !! k = Some (d', Returned)).
      { assert (Hd : (run_schedule sched (spawn dirs, s0)).1.*1 !! k = Some d').
        { rewrite run_schedule_dirs, list_lookup_fmap, Hk. reflexivity. }
        rewrite list_lookup_fmap in Hd.
        destruct ((run_schedule sched (spawn dirs, s0)).1 !! k) as [[d1 q]|] eqn:Hq;
          simpl in Hd; [| discriminate].
        injection Hd as ->.
        rewrite (all_returned_lookup _ k d' q Hall Hq). reflexivity. }
      destruct (returned_was_called sched (spawn dirs) s0 k d' Hk Hfin) as [n [Hn Hmid]].
      eexists. exists n, k. split; [exact Hn | split; [exact Hmid | reflexivity]].
    + intros out e Hret.
      pose proof (exec_returned_fate dirs s0 sched d (out, Some e)
                    (failed_inv d (view d s0) out e) Hnd Hdry
                    (failed_stable d (view d s0) out e)) as Hfate.
      simpl in Hfate.
      specialize (Hfate (fun v Hv => conj eq_refl (conj eq_refl Hv)) Hall Hret).
      split; [| split; [| split]].
      * exact (f_equal v_errors Hfate).
      * exact (f_equal v_output Hfate).
      * exact (f_equal v_calls Hfate).
      * intros d' out' Hne Hret'.
        exact (exec_returned_fate dirs s0 sched d' (out', None)
                 (succeeded_inv out') Hnd Hdry (succeeded_stable d' out')
                 (fun v _ => conj eq_refl eq_refl) Hall Hret').
Qed.

End BuildFacts.

Section Constructor.

Import repobuilder.

Context {RepositoryConfig MongoDBVersion : Type}.
Variable buildRepoJob :
  Job (RepositoryConfig := RepositoryConfig) (MongoDBVersion := MongoDBVersion).
Variable os_Getwd : string * option error.
Variable NewMongoDBVersion : string -> MongoDBVersion + error.

Local Abbreviation NewBuildRPMRepo :=
  (NewBuildRPMRepo buildRepoJob os_Getwd NewMongoDBVersion).

(** C9. A version string that does not parse: the constructor returns no job
    and an error, the parser's own once the working directory is known.  A
    version that parses, with a working directory: it returns the job, with
    every field the constructor sets, and no error. *)
Theorem NewBuildRPMRepo_version_gate (conf : RepositoryConfig)
    (distro : RepositoryDefinition) (version arch profile : string)
    (pkgs : list string) (n : nat) :
  (forall e, NewMongoDBVersion version = inr e ->
     exists err,
       NewBuildRPMRepo conf distro version arch profile pkgs n = (None, Some err)
       /\ (os_Getwd.2 = None -> err = e))
  /\ (forall rel wd, NewMongoDBVersion version = inl rel -> os_Getwd = (wd, None) ->
     exists r,
       NewBuildRPMRepo conf distro version arch profile pkgs n = (Some r, None)
       /\ WorkSpace (Job_ r) = wd
       /\ release (Job_ r) = Some rel
       /\ JobType_ (Job_ r) = {| jt_Name := "build-rpm-repo"; jt_Version := 0 |}
       /\ Name (Job_ r) = "build-rpm-repo." +:+ Sprintf_d n
       /\ Distro (Job_ r) = distro
       /\ Conf (Job_ r) = conf
       /\ PackagePaths (Job_ r) = pkgs
       /\ Version (Job_ r) = version
       /\ Arch (Job_ r) = arch
       /\ Profile (Job_ r) = profile).
Proof.
  unfold repobuilder.NewBuildRPMRepo. split.
  - intros e He. rewrite He. destruct os_Getwd as [wd [werr|]]; simpl.
    + exists werr. split; [reflexivity | discriminate].
    + exists e. split; [reflexivity | reflexivity].
  - intros rel wd Hrel Hwd. rewrite Hrel, Hwd. eexists. split; [reflexivity |].
    simpl. repeat split.
Qed.

End Constructor.

(** * Dry runs *)

Section DryRunSteps.

Context {Remote : Type}.
Variable E : Bucket -> string -> World Remote -> (bool * option error) * World Remote.
Variable G : Bucket -> string -> string -> World Remote -> option error * World Remote.

Lemma Run_dry_no_remove (s : St) :
  dryRun (b (job s)) = true ->
  count is_CallRemoveAll (trace (Run E G s).2) = count is_CallRemoveAll (trace s).
Proof.
  intros Hdry. unfold_run. rewrite Hdry. simpl negb. rewrite andb_false_r.
  split_run E G; rewrite ?count_app; simpl; lia.
Qed.

Lemma Run_dry_missing_remote (s : St) (w1 : World Remote) :
  dryRun (b (job s)) = true ->
  Key (remoteFile (job s)) <> EmptyString ->
  E (b (job s)) (Key (remoteFile (job s))) (world s) = ((false, None), w1) ->
  trace (Run E G s).2 =
    (trace s ++
     [CallExists (Key (remoteFile (job s)));
      Log Notice ("dry-run: would remove local file " +:+ Key (remoteFile (job s))
                  +:+ " from because it doesn't exist in bucket "
                  +:+ bucketName (b (job s)))])%list
  /\ world (Run E G s).2 = w1
  /\ errors (job (Run E G s).2) = errors (job s).
Proof.
  intros Hdry Hkey HE. unfold_run.
  rewrite (key_eqb_false _ Hkey), HE, Hdry. simpl. rewrite andb_false_r. simpl.
  rewrite <- app_assoc. repeat split.
Qed.

End DryRunSteps.

Section DryRun.

Context {R RepositoryConfig MongoDBVersion X : Type}.
Variable E :
  Bucket -> string -> World (Journaled R) -> (bool * option error) * World (Journaled R).
Variable transfer :
  string -> string -> World (Journaled R) -> option error * World (Journaled R).
Variable exec : list string -> Journaled X -> (string * option error) * Journaled X.
Variable sign :
  repobuilder.Job (RepositoryConfig := RepositoryConfig) (MongoDBVersion := MongoDBVersion)
  -> string -> string -> bool -> Journaled X -> option error * Journaled X.
Variable index :
  RepositoryConfig -> string -> string -> Journaled X -> option error * Journaled X.

Local Abbreviation Get := (spec_Bucket_Get transfer).
Local Abbreviation rebuildRepo mode :=
  (repobuilder.rebuildRepo exec (repobuilder.spec_signFile sign)
     (repobuilder.spec_BuildIndexPageForDirectory mode index)).

(** What the run leaves behind is what the existence check left, and a line
    in the log for each call of [Get]. *)
Lemma Run_dry_world (s : St) :
  dryRun (b (job s)) = true ->
  let after := (Run E Get s).2 in
  let queried :=
    if String.eqb (Key (remoteFile (job s))) EmptyString then world s
    else (E (b (job s)) (Key (remoteFile (job s))) (world s)).2 in
  fs (world after) = fs queried
  /\ acted_on (remote (world after)) = acted_on (remote queried)
  /\ exists new,
       trace after = (trace s ++ new)%list
       /\ journal (remote (world after))
          = (journal (remote queried) ++ fetch_lines new)%list.
Proof.
  intros Hdry after queried. subst after queried.
  unfold_run. unfold spec_Bucket_Get. rewrite Hdry.
  simpl negb. rewrite andb_false_r.
  destruct (String.eqb (Key (remoteFile (job s))) EmptyString); simpl.
  - split; [reflexivity |]. split; [reflexivity |].
    exists []. rewrite !app_nil_r. split; reflexivity.
  - destruct (E (b (job s)) (Key (remoteFile (job s))) (world s)) as [[found err] w1].
    simpl.
    split_run E transfer; try discriminate;
      (split; [reflexivity |]); (split; [reflexivity |]);
      eexists; (split; [rewrite <- ?app_assoc; reflexivity |]);
      simpl; rewrite ?app_nil_r; reflexivity.
Qed.

(** Where a real run fetches, the dry run writes the line for the fetch. *)
Lemma Run_dry_fetch_logged (s : St) (w1 : World (Journaled R)) :
  dryRun (b (job s)) = true ->
  Key (remoteFile (job s)) <> EmptyString ->
  E (b (job s)) (Key (remoteFile (job s))) (world s) = ((true, None), w1) ->
  (fs w1 !! localPath (job s) = None
   \/ exists n, fs w1 !! localPath (job s) = Some n
                /\ isDir n = false /\ readable n = true
                /\ checksums_equal (data n) (ETag (remoteFile (job s))) = false) ->
  journal (remote (world (Run E Get s).2))
    = (journal (remote w1)
       ++ [would_fetch (Key (remoteFile (job s))) (localPath (job s))])%list
  /\ errors (job (Run E Get s).2) = errors (job s).
Proof.
  intros Hdry Hkey HE Hlocal. unfold checksums_equal in Hlocal.
  unfold_run. unfold spec_Bucket_Get.
  rewrite (key_eqb_false _ Hkey), HE, Hdry. simpl.
  unfold os_Stat, ioutil_ReadFile.
  destruct Hlocal as [Habs | [n [Hnode [Hdir [Hread Hdiff]]]]].
  - rewrite Habs. simpl. rewrite Hdry. simpl. split; reflexivity.
  - simpl. rewrite Hnode. simpl. rewrite Hnode, Hdir, Hread. simpl.
    rewrite Hdiff. simpl. rewrite Hdry. simpl. split; reflexivity.
Qed.

(** The dry-run pipeline: no subprocess, the placeholder stored, and the
    sign and index stages reached, where nothing is produced. *)
Lemma rebuildRepo_dry (d : string) (r : repobuilder.St) :
  repobuilder.DryRun (repobuilder.job r) = true ->
  let built := (rebuildRepo true d r).2 in
  let args := strings_Join (repobuilder.cmd_Args d) " " in
  let bucket := repobuilder.Bucket (repobuilder.Distro (repobuilder.job r)) in
  acted_on (repobuilder.world built) = acted_on (repobuilder.world r)
  /\ journal (repobuilder.world built)
     = (journal (repobuilder.world r)
        ++ [repobuilder.would_sign (repobuilder.metaDataFile d) "asc";
            repobuilder.would_index d bucket])%list
  /\ repobuilder.trace built =
     (repobuilder.trace r ++
      [(d, repobuilder.Log Info ("building repo with operation: " +:+ args));
       (d, repobuilder.Log Notice ("[dry-run] would run: " +:+ args));
       (d, repobuilder.Log Info ("rebuilt repo for: " +:+ d));
       (d, repobuilder.CallSignFile (repobuilder.metaDataFile d) "asc" false);
       (d, repobuilder.CallBuildIndexPage d bucket)])%list
  /\ repobuilder.Output (repobuilder.job built) !! d = Some "no output: dry run"
  /\ repobuilder.Errors (repobuilder.job built) = repobuilder.Errors (repobuilder.job r).
Proof.
  intros Hdry.
  cbv [repobuilder.rebuildRepo repobuilder.rebuildRepo_body repobuilder.on_world
       repobuilder.emit repobuilder.on_job repobuilder.self repobuilder.wg_Done
       repobuilder.store_Output mbind mret repobuilder.M_bind repobuilder.M_ret
       repobuilder.spec_signFile repobuilder.spec_BuildIndexPageForDirectory].
  rewrite Hdry. simpl. rewrite Hdry. simpl.
  rewrite <- !app_assoc. simpl.
  split; [reflexivity |]. split; [reflexivity |]. split; [reflexivity |].
  split; [apply lookup_insert_eq | reflexivity].
Qed.

(** C3. The dry-run flag is set, process-wide: on the bucket, on the build
    job, and for the index builder.  [Bucket.Get], [Job.signFile] and
    [BuildIndexPageForDirectory] are as the spec describes them.
    [Run] calls no [os.RemoveAll]; it leaves the local files and the bucket
    as the existence check left them; the log gets one line for each fetch,
    and nothing else.  Where delete-mode is on and the object is gone, [Run]
    logs the removal it would make.  Where the object is there and the local
    file is missing, or can be read and differs, the log gets the line for
    that fetch and no error is recorded.
    [rebuildRepo] runs no subprocess and logs the command it would run;
    nothing is signed or indexed, and the log gets the lines for both; the
    placeholder is stored for the directory, the sign and the index stage are
    reached and no error is recorded. *)
Theorem dry_run_suppresses_actions (mode : bool) (s : St) (r : repobuilder.St)
    (d : string) :
  mode = true ->
  dryRun (b (job s)) = mode ->
  repobuilder.DryRun (repobuilder.job r) = mode ->
  let j := job s in
  let key := Key (remoteFile j) in
  let after := (Run E Get s).2 in
  let queried := if String.eqb key EmptyString then world s
                 else (E (b j) key (world s)).2 in
  let built := (rebuildRepo mode d r).2 in
  let args := strings_Join (repobuilder.cmd_Args d) " " in
  let bucket := repobuilder.Bucket (repobuilder.Distro (repobuilder.job r)) in
  (count is_CallRemoveAll (trace after) = count is_CallRemoveAll (trace s)
   /\ fs (world after) = fs queried
   /\ acted_on (remote (world after)) = acted_on (remote queried)
   /\ exists new,
        trace after = (trace s ++ new)%list
        /\ journal (remote (world after))
           = (journal (remote queried) ++ fetch_lines new)%list)
  /\ (forall w1,
        withDelete j = true ->
        key <> EmptyString ->
        E (b j) key (world s) = ((false, None), w1) ->
        trace after =
          (trace s ++
           [CallExists key;
            Log Notice ("dry-run: would remove local file " +:+ key
                        +:+ " from because it doesn't exist in bucket "
                        +:+ bucketName (b j))])%list)
  /\ (forall w1,
        key <> EmptyString ->
        E (b j) key (world s) = ((true, None), w1) ->
        (fs w1 !! localPath j = None
         \/ exists n, fs w1 !! localPath j = Some n
                      /\ isDir n = false /\ readable n = true
                      /\ checksums_equal (data n) (ETag (remoteFile j)) = false) ->
        journal (remote (world after))
          = (journal (remote w1) ++ [would_fetch key (localPath j)])%list
        /\ errors (job after) = errors j)
  /\ (count (fun x => repobuilder.is_exec x.2) (repobuilder.trace built)
      = count (fun x => repobuilder.is_exec x.2) (repobuilder.trace r)
      /\ acted_on (repobuilder.world built) = acted_on (repobuilder.world r)
      /\ journal (repobuilder.world built)
         = (journal (repobuilder.world r)
            ++ [repobuilder.would_sign (repobuilder.metaDataFile d) "asc";
                repobuilder.would_index d bucket])%list
      /\ repobuilder.trace built =
         (repobuilder.trace r ++
          [(d, repobuilder.Log Info ("building repo with operation: " +:+ args));
           (d, repobuilder.Log Notice ("[dry-run] would run: " +:+ args));
           (d, repobuilder.Log Info ("rebuilt repo for: " +:+ d));
           (d, repobuilder.CallSignFile (repobuilder.metaDataFile d) "asc" false);
           (d, repobuilder.CallBuildIndexPage d bucket)])%list
      /\ repobuilder.Output (repobuilder.job built) !! d = Some "no output: dry run"
      /\ repobuilder.Errors (repobuilder.job built)
         = repobuilder.Errors (repobuilder.job r)).
Proof.
  intros -> Hdry HDry j key after queried built args bucket.
  subst j key after queried built args bucket.
  split; [| split; [| split]].
  - split; [apply Run_dry_no_remove; exact Hdry | apply Run_dry_world; exact Hdry].
  - intros w1 _ Hkey HE.
    destruct (Run_dry_missing_remote E Get s w1 Hdry Hkey HE) as [Htrace _].
    exact Htrace.
  - intros w1 Hkey HE Hlocal. apply Run_dry_fetch_logged; assumption.
  - destruct (rebuildRepo_dry d r HDry) as [Hact [Hlog [Htrace [Hout Herr]]]].
    split; [rewrite Htrace, count_app; simpl; lia |].
    repeat split; assumption.
Qed.

End DryRun.

(** * The build and the dry run on the stubs *)

Section BuildInstances.

Import build_scenario.

Let upper_etag : string := scenario.quoted "eb61eead90e3b899c6bcbe27ac581660".

Local Abbreviation rebuild_logged :=
  (repobuilder.rebuildRepo logged_exec (repobuilder.spec_signFile logged_sign)
     (repobuilder.spec_BuildIndexPageForDirectory true logged_index)).
Local Abbreviation run_flaky :=
  (repobuilder.run_schedule flaky_exec stub_signFile stub_buildIndex).

(** A dry run of the hello job on a stale local copy, one on a copy whose
    object has left the bucket, and a dry-run build of one tree. *)
Lemma dry_run_suppresses_actions_witness :
  let stale := scenario.mkLogged (scenario.hello_job upper_etag true) scenario.stale_world in
  let orphan := scenario.mkLogged (scenario.hello_job upper_etag true) scenario.orphan_world in
  let run s := (Run scenario.logged_Exists
                    (spec_Bucket_Get scenario.logged_transfer) s).2 in
  let built := (rebuild_logged "repo/x86_64" (logged_start true)).2 in
  (fs (world (run stale)) = fs scenario.stale_world
   /\ journal (remote (world (run stale)))
      = ["dry-run: would fetch dist/hello.txt to /srv/hello.txt"]
   /\ errors (job (run stale)) = [])
  /\ trace (run orphan)
     = [CallExists "dist/hello.txt";
        Log Notice ("dry-run: would remove local file dist/hello.txt"
                    +:+ " from because it doesn't exist in bucket releases")]
  /\ fs (world (run orphan)) = fs scenario.orphan_world
  /\ acted_on (repobuilder.world built) = 0%nat
  /\ journal (repobuilder.world built)
     = ["[dry-run] would sign repo/x86_64/repodata/repomd.xml with extension asc";
        "[dry-run] would build index pages for repo/x86_64 in repo.example.org"]
  /\ repobuilder.Output (repobuilder.job built) !! "repo/x86_64"
     = Some "no output: dry run"
  /\ repobuilder.Errors (repobuilder.job built) = [].
Proof.
  intros stale orphan run built.
  destruct (dry_run_suppresses_actions scenario.logged_Exists scenario.logged_transfer
              logged_exec logged_sign logged_index true stale (logged_start true)
              "repo/x86_64" eq_refl eq_refl eq_refl)
    as [[_ [Hfs _]] [_ [Hfetch [_ [Hact [Hlog [_ [Hout Herr]]]]]]]].
  destruct (dry_run_suppresses_actions scenario.logged_Exists scenario.logged_transfer
              logged_exec logged_sign logged_index true orphan (logged_start true)
              "repo/x86_64" eq_refl eq_refl eq_refl)
    as [[_ [Hfs' _]] [Hgone _]].
  assert (Hkey : Key (remoteFile (job stale)) <> EmptyString) by discriminate.
  destruct (Hfetch scenario.stale_world Hkey eq_refl) as [Hline Hnone].
  { right. exists (mkNode false "hello" true true).
    split; [reflexivity |]. split; [reflexivity |]. split; [reflexivity |].
    vm_compute. reflexivity. }
  split; [split; [exact Hfs | split; [exact Hline | exact Hnone]] |].
  split; [exact (Hgone scenario.orphan_world eq_refl Hkey eq_refl) |].
  split; [exact Hfs' |].
  split; [exact Hact |]. split; [exact Hlog |]. split; [exact Hout | exact Herr].
Defined.

(** Three trees and an indexer that fails on its third run: with the stops
    mixed as in [mixed_schedule] the third call is the one for the second
    tree. *)
Lemma failed_indexer_is_isolated_witness :
  let fin := run_flaky mixed_schedule (repobuilder.spawn three_dirs, start false) in
  repobuilder.all_returned fin.1 = true
  /\ repobuilder.errors_naming "repo/i386" (repobuilder.Errors (repobuilder.job fin.2))
     = [withMessage (errors_New "exit status 1") (repobuilder.createrepo_msg "repo/i386")]
  /\ repobuilder.Output (repobuilder.job fin.2) !! "repo/i386" = None
  /\ repobuilder.Output (repobuilder.job fin.2) !! "repo/x86_64"
     = Some "Saving Primary metadata for repo/x86_64"
  /\ repobuilder.Output (repobuilder.job fin.2) !! "repo/arm64"
     = Some "Saving Primary metadata for repo/arm64".
Proof.
  intros fin.
  assert (Hnd : NoDup three_dirs).
  { apply (bool_decide_unpack _). vm_compute. exact I. }
  assert (Hall : repobuilder.all_returned fin.1 = true) by (vm_compute; reflexivity).
  assert (Hbad : repobuilder.exec_returned flaky_exec stub_signFile stub_buildIndex
                   mixed_schedule three_dirs (start false) "repo/i386"
                   ("createrepo: cannot allocate memory",
                    Some (errors_New "exit status 1"))).
  { exists 2%nat, 1%nat. split; [reflexivity |]. split; vm_compute; reflexivity. }
  assert (Hok0 : repobuilder.exec_returned flaky_exec stub_signFile stub_buildIndex
                   mixed_schedule three_dirs (start false) "repo/x86_64"
                   ("Saving Primary metadata for repo/x86_64", None)).
  { exists 1%nat, 0%nat. split; [reflexivity |]. split; vm_compute; reflexivity. }
  assert (Hok2 : repobuilder.exec_returned flaky_exec stub_signFile stub_buildIndex
                   mixed_schedule three_dirs (start false) "repo/arm64"
                   ("Saving Primary metadata for repo/arm64", None)).
  { exists 0%nat, 2%nat. split; [reflexivity |]. split; vm_compute; reflexivity. }
  destruct (failed_indexer_is_isolated flaky_exec stub_signFile stub_buildIndex
              three_dirs (start false) "repo/i386" Hnd eq_refl)
    as [_ [_ Hsched]].
  unfold fin in *. clear fin.
  destruct (Hsched mixed_schedule Hall) as [_ Hfate].
  destruct (Hfate _ _ Hbad) as [Herr [Hout [_ Hothers]]].
  split; [exact Hall |]. split; [exact Herr |]. split; [exact Hout |]. split.
  - apply Hothers; [discriminate | exact Hok0].
  - apply Hothers; [discriminate | exact Hok2].
Defined.

Lemma NewBuildRPMRepo_version_gate_witness :
  let distro := repobuilder.mkDistro "rhel7" "repo.example.org" in
  let new := repobuilder.NewBuildRPMRepo zero_job ("/build", None) stub_parse
               tt distro in
  new "three-point-two" "x86_64" "default" ["/build/server.rpm"] 4%nat
    = (None, Some (errors_New "invalid version three-point-two"))
  /\ (exists r,
        new "3.2.7" "x86_64" "default" ["/build/server.rpm"] 4%nat = (Some r, None)
        /\ repobuilder.Version (repobuilder.Job_ r) = "3.2.7"
        /\ repobuilder.WorkSpace (repobuilder.Job_ r) = "/build").
Proof.
  intros distro new. split.
  - destruct (NewBuildRPMRepo_version_gate zero_job ("/build", None) stub_parse
                tt distro "three-point-two" "x86_64" "default"
                ["/build/server.rpm"] 4%nat) as [Hbad _].
    destruct (Hbad _ eq_refl) as [err [Heq Herr]].
    unfold new. rewrite Heq, (Herr eq_refl). reflexivity.
  - destruct (NewBuildRPMRepo_version_gate zero_job ("/build", None) stub_parse
                tt distro "3.2.7" "x86_64" "default"
                ["/build/server.rpm"] 4%nat) as [_ Hgood].
    destruct (Hgood "3.2.7" "/build" eq_refl eq_refl)
      as [r [Heq [Hwd [_ [_ [_ [_ [_ [_ [Hver _]]]]]]]]]].
    exists r. split; [exact Heq |]. split; [exact Hver | exact Hwd].
Defined.

End BuildInstances.

(** * More on the sync job: the other paths of [Run] *)

Section SyncMore.

Context {Remote : Type}.
Variable E : Bucket -> string -> World Remote -> (bool * option error) * World Remote.
Variable G : Bucket -> string -> string -> World Remote -> option error * World Remote.
Variable render : error -> string.

(** X1. When the existence check fails, whatever it says of the object, [Run]
    records the one wrapped error and stops: no filesystem call, no fetch, the
    world as the check left it. *)
Theorem Run_exists_failure (s : St) (present : bool) (e : error) (w1 : World Remote) :
  Key (remoteFile (job s)) <> EmptyString ->
  E (b (job s)) (Key (remoteFile (job s))) (world s) = ((present, Some e), w1) ->
  trace (Run E G s).2 = (trace s ++ [CallExists (Key (remoteFile (job s)))])%list
  /\ world (Run E G s).2 = w1
  /\ errors (job (Run E G s).2) =
       (errors (job s)
        ++ [withMessage e ("problem checking if the file '"
                           +:+ Key (remoteFile (job s)) +:+ "' exists")])%list
  /\ Completed (job (Run E G s).2) = true.
Proof.
  intros Hkey HE. unfold_run. rewrite (key_eqb_false _ Hkey), HE. simpl.
  repeat split.
Qed.

(** X2. Remote object gone and delete-mode off: the local side is left alone.
    No filesystem call, no fetch, no error; one log line, a warning in a real
    run and the dry-run notice otherwise. *)
Theorem Run_missing_remote_keeps_local (s : St) (w1 : World Remote) :
  Key (remoteFile (job s)) <> EmptyString ->
  E (b (job s)) (Key (remoteFile (job s))) (world s) = ((false, None), w1) ->
  withDelete (job s) = false ->
  (exists lvl msg,
     trace (Run E G s).2 =
       (trace s ++ [CallExists (Key (remoteFile (job s))); Log lvl msg])%list
     /\ lvl = (if dryRun (b (job s)) then Notice else Warning))
  /\ world (Run E G s).2 = w1
  /\ errors (job (Run E G s).2) = errors (job s).
Proof.
  intros Hkey HE Hdel. unfold_run. rewrite (key_eqb_false _ Hkey), HE, Hdel. simpl.
  destruct (dryRun (b (job s))); simpl; rewrite <- app_assoc; simpl;
    repeat split; eexists; eexists; split; reflexivity.
Qed.

(** X3. Remote object there, nothing at the local path: [Run] fetches once
    without reading anything, and a failed fetch is recorded under the two
    wrappers of [doGet] and [Run]. *)
Theorem Run_missing_local_fetches_once (s : St) (w1 : World Remote) :
  Key (remoteFile (job s)) <> EmptyString ->
  E (b (job s)) (Key (remoteFile (job s))) (world s) = ((true, None), w1) ->
  fs w1 !! localPath (job s) = None ->
  let got := G (b (job s)) (Key (remoteFile (job s))) (localPath (job s)) w1 in
  trace (Run E G s).2 =
    (trace s ++ [CallExists (Key (remoteFile (job s))); CallStat (localPath (job s));
                 CallGet (Key (remoteFile (job s))) (localPath (job s))])%list
  /\ world (Run E G s).2 = got.2
  /\ errors (job (Run E G s).2) =
       match got.1 with
       | None => errors (job s)
       | Some e =>
           (errors (job s)
            ++ [withMessage (withMessage e "problem with s3 get during sync")
                  "problem downloading file during sync"])%list
       end.
Proof.
  intros Hkey HE Habs got. subst got. unfold_run.
  rewrite (key_eqb_false _ Hkey), HE. simpl. unfold os_Stat. rewrite Habs. simpl.
  destruct (G _ _ _ _) as [[e|] w2]; simpl; rewrite <- !app_assoc; simpl; repeat split.
Qed.

(** The comparison step, for a local file that can be read. *)
Lemma Run_compare_step (s : St) (w1 : World Remote) (n : Node) :
  Key (remoteFile (job s)) <> EmptyString ->
  E (b (job s)) (Key (remoteFile (job s))) (world s) = ((true, None), w1) ->
  fs w1 !! localPath (job s) = Some n ->
  isDir n = false ->
  readable n = true ->
  let got := G (b (job s)) (Key (remoteFile (job s))) (localPath (job s)) w1 in
  if checksums_equal (data n) (ETag (remoteFile (job s))) then
    fetch_calls (trace (Run E G s).2) = fetch_calls (trace s)
    /\ world (Run E G s).2 = w1
    /\ errors (job (Run E G s).2) = errors (job s)
  else
    fetch_calls (trace (Run E G s).2) = (fetch_calls (trace s) + 1)%nat
    /\ world (Run E G s).2 = got.2
    /\ errors (job (Run E G s).2) =
         match got.1 with
         | None => errors (job s)
         | Some e =>
             (errors (job s)
              ++ [withMessage (withMessage e "problem with s3 get during sync")
                    ("problem fetching file '" +:+ Key (remoteFile (job s))
                     +:+ "' during sync")])%list
         end.
Proof.
  intros Hkey HE Hnode Hdir Hread got. subst got.
  unfold checksums_equal, fetch_calls.
  unfold_run. rewrite (key_eqb_false _ Hkey), HE. simpl.
  unfold os_Stat, ioutil_ReadFile. simpl. rewrite Hnode. simpl.
  rewrite Hnode, Hdir, Hread. simpl.
  destruct (String.eqb _ _) eqn:Hsame; simpl.
  - rewrite !count_app. simpl. repeat split. lia.
  - destruct (G _ _ _ _) as [[e|] w2]; simpl; rewrite !count_app; simpl;
      repeat split; lia.
Qed.

(** X4. The local file differs and the fetch fails: the job records the
    fetch error under the wrapper of [doGet] and the one that names the key,
    and the world is as the failed fetch left it. *)
Theorem Run_mismatch_fetch_failure (s : St) (w1 w2 : World Remote) (n : Node)
    (e : error) :
  Key (remoteFile (job s)) <> EmptyString ->
  E (b (job s)) (Key (remoteFile (job s))) (world s) = ((true, None), w1) ->
  fs w1 !! localPath (job s) = Some n ->
  isDir n = false ->
  readable n = true ->
  checksums_equal (data n) (ETag (remoteFile (job s))) = false ->
  G (b (job s)) (Key (remoteFile (job s))) (localPath (job s)) w1 = (Some e, w2) ->
  errors (job (Run E G s).2) =
    (errors (job s)
     ++ [withMessage (withMessage e "problem with s3 get during sync")
           ("problem fetching file '" +:+ Key (remoteFile (job s))
            +:+ "' during sync")])%list
  /\ world (Run E G s).2 = w2
  /\ fetch_calls (trace (Run E G s).2) = (fetch_calls (trace s) + 1)%nat
  /\ Completed (job (Run E G s).2) = true.
Proof.
  intros Hkey HE Hnode Hdir Hread Hdiff HG.
  pose proof (Run_compare_step s w1 n Hkey HE Hnode Hdir Hread) as Hstep.
  cbv zeta in Hstep. rewrite Hdiff, HG in Hstep. simpl in Hstep.
  destruct Hstep as [Hcount [Hw Herr]].
  repeat split; try assumption.
  rewrite Run_is_body_then_mark. reflexivity.
Qed.

Lemma Run_errors_grow (s : St) :
  exists new,
    errors (job (Run E G s).2) = (errors (job s) ++ new)%list
    /\ (List.length new <= 2)%nat.
Proof.
  unfold_run. split_run E G;
    rewrite <- ?app_assoc; simpl;
    first [ exists []; split; [symmetry; apply app_nil_r | simpl; lia]
          | eexists [_]; split; [reflexivity | simpl; lia]
          | eexists [_; _]; split; [reflexivity | simpl; lia] ].
Qed.

(** X5. [Run] only appends to the error list: what was recorded before stays
    in place and in order, and one run adds at most two errors (a failed read
    followed by a failed fetch), so [n] runs add at most [2 n]. *)
Theorem Run_errors_append_only (n : nat) (s : St) :
  exists new,
    errors (job (Run_times E G n s)) = (errors (job s) ++ new)%list
    /\ (List.length new <= 2 * n)%nat.
Proof.
  induction n as [|n IH].
  - exists []. split; [symmetry; apply app_nil_r | simpl; lia].
  - destruct IH as [new [Heq Hlen]].
    destruct (Run_errors_grow (Run_times E G n s)) as [more [Heq' Hlen']].
    exists (new ++ more)%list. split.
    + change (Run_times E G (S n) s) with (Run E G (Run_times E G n s)).2.
      rewrite Heq', Heq, app_assoc. reflexivity.
    + rewrite length_app. lia.
Qed.

(** X6. Every call of a run is on the key or on the local path of its own
    job; a run asks for existence at most once and makes at most one of a
    fetch and a removal, never both. *)
Theorem Run_calls_own_path (s : St) :
  exists calls,
    trace (Run E G s).2 = (trace s ++ calls)%list
    /\ forallb (own_call (job s)) calls = true
    /\ (count is_CallExists calls <= 1)%nat
    /\ (count is_CallGet calls + count is_CallRemoveAll calls <= 1)%nat.
Proof.
  unfold_run. split_run E G; rewrite <- ?app_assoc; simpl;
    eexists; (split; [first [reflexivity | symmetry; apply app_nil_r] |]);
    simpl; rewrite ?String.eqb_refl; simpl; repeat split; lia.
Qed.

Lemma RemoveAll_outside (files : gmap string Node) (path q : string) :
  under path q = false ->
  (os_RemoveAll files path).2 !! q = files !! q.
Proof.
  intros Hout. unfold os_RemoveAll.
  destruct ((map_to_list _).*1) as [|k ks]; simpl.
  - destruct (files !! q) as [x|] eqn:Hq.
    + apply map_lookup_filter_Some_2; [exact Hq | exact Hout].
    + apply map_lookup_filter_None_2. left. exact Hq.
  - destruct (files !! q) as [x|] eqn:Hq.
    + apply map_lookup_filter_Some_2; [exact Hq | left; exact Hout].
    + apply map_lookup_filter_None_2. left. exact Hq.
Qed.

(** X7. Delete-mode removal stays inside the job's path: whether
    [os.RemoveAll] succeeds or fails, every path that is neither the local
    path nor below it is as the existence check left it. *)
Theorem Run_delete_stays_inside (s : St) (w1 : World Remote) (q : string) :
  Key (remoteFile (job s)) <> EmptyString ->
  E (b (job s)) (Key (remoteFile (job s))) (world s) = ((false, None), w1) ->
  withDelete (job s) = true ->
  dryRun (b (job s)) = false ->
  under (localPath (job s)) q = false ->
  fs (world (Run E G s).2) !! q = fs w1 !! q.
Proof.
  intros Hkey HE Hdel Hdry Hout.
  destruct (Run_delete_step E G s w1 Hkey HE Hdel Hdry) as [_ [Hfs _]].
  rewrite Hfs. apply RemoveAll_outside. exact Hout.
Qed.

End SyncMore.

(** ** The checksum that [Run] compares *)

Section Checksum.

Lemma bytes_le_length (n : nat) (x : Z) : List.length (md5.bytes_le n x) = n.
Proof. unfold md5.bytes_le. rewrite length_map, length_seq. reflexivity. Qed.

Lemma bytes_le_range (n : nat) (x : Z) :
  Forall (fun v => 0 <= v < 256) (md5.bytes_le n x).
Proof.
  unfold md5.bytes_le. apply Forall_forall. intros v Hin.
  apply list_elem_of_In, in_map_iff in Hin as [k [<- _]].
  apply Z.mod_pos_bound. reflexivity.
Qed.

Lemma Sum_length (content : list Z) : List.length (md5.Sum content) = 16%nat.
Proof.
  unfold md5.Sum. destruct (fold_left _ _ _) as [[[a b0] c] d].
  rewrite !length_app, !bytes_le_length. reflexivity.
Qed.

Lemma Sum_range (content : list Z) : Forall (fun v => 0 <= v < 256) (md5.Sum content).
Proof.
  unfold md5.Sum. destruct (fold_left _ _ _) as [[[a b0] c] d].
  repeat apply Forall_app_2; apply bytes_le_range.
Qed.

Lemma hexdigit_lower (v : Z) :
  0 <= v < 16 -> in_cutset (hexdigit v) "0123456789abcdef" = true.
Proof.
  intros Hv.
  assert (Hcases : v = 0 \/ v = 1 \/ v = 2 \/ v = 3 \/ v = 4 \/ v = 5 \/ v = 6
                   \/ v = 7 \/ v = 8 \/ v = 9 \/ v = 10 \/ v = 11 \/ v = 12
                   \/ v = 13 \/ v = 14 \/ v = 15) by lia.
  repeat (destruct Hcases as [-> | Hcases]; [reflexivity |]). subst v. reflexivity.
Qed.

Lemma Sprintf_x_shape (bs : list Z) :
  Forall (fun v => 0 <= v < 256) bs ->
  String.length (Sprintf_x bs) = (2 * List.length bs)%nat
  /\ all_chars (fun c => in_cutset c "0123456789abcdef") (Sprintf_x bs) = true.
Proof.
  induction 1 as [|v bs Hv Hbs [IHlen IHhex]].
  - split; reflexivity.
  - change (Sprintf_x (v :: bs))
      with (String (hexdigit (v / 16)) (String (hexdigit (v mod 16)) (Sprintf_x bs))).
    split.
    + cbn [String.length List.length]. rewrite IHlen. lia.
    + cbn [all_chars]. rewrite IHhex.
      rewrite (hexdigit_lower (v / 16)), (hexdigit_lower (v mod 16)); [reflexivity | |].
      * apply Z.mod_pos_bound. reflexivity.
      * split; [apply Z.div_pos; lia | apply Z.div_lt_upper_bound; lia].
Qed.

Lemma local_checksum_is_md5_hex (content : string) :
  is_md5_hex (Sprintf_x (md5.Sum (bytes_of_string content))) = true.
Proof.
  destruct (Sprintf_x_shape _ (Sum_range (bytes_of_string content))) as [Hlen Hhex].
  unfold is_md5_hex. rewrite Hlen, Sum_length, Hhex. reflexivity.
Qed.

Lemma not_md5_hex_differs (content etag : string) :
  is_md5_hex (strings_Trim etag (String quote_char " ")) = false ->
  checksums_equal content etag = false.
Proof.
  intros Hnot. unfold checksums_equal.
  destruct (String.eqb _ _) eqn:Heq; [| reflexivity].
  apply String.eqb_eq in Heq. rewrite <- Heq in Hnot.
  rewrite local_checksum_is_md5_hex in Hnot. discriminate.
Qed.

Lemma in_cutset_quote : in_cutset quote_char (String quote_char " ") = true.
Proof. reflexivity. Qed.

Lemma TrimRight_snoc (s cutset : string) (q : ascii) :
  in_cutset q cutset = true ->
  strings_TrimRight (s +:+ String q EmptyString) cutset = strings_TrimRight s cutset.
Proof.
  intros Hq. induction s as [|c s IH].
  - change (EmptyString +:+ String q EmptyString) with (String q EmptyString).
    cbn [strings_TrimRight]. rewrite Hq. reflexivity.
  - change (String c s +:+ String q EmptyString)
      with (String c (s +:+ String q EmptyString)).
    cbn [strings_TrimRight]. rewrite IH. reflexivity.
Qed.

Lemma TrimRight_TrimLeft_snoc (s cutset : string) (q : ascii) :
  in_cutset q cutset = true ->
  strings_TrimRight (strings_TrimLeft (s +:+ String q EmptyString) cutset) cutset
  = strings_TrimRight (strings_TrimLeft s cutset) cutset.
Proof.
  intros Hq. induction s as [|c s IH].
  - change (EmptyString +:+ String q EmptyString) with (String q EmptyString).
    cbn [strings_TrimLeft]. rewrite Hq. reflexivity.
  - change (String c s +:+ String q EmptyString)
      with (String c (s +:+ String q EmptyString)).
    cbn [strings_TrimLeft]. destruct (in_cutset c cutset) eqn:Hc.
    + exact IH.
    + change (String c (s +:+ String q EmptyString))
        with (String c s +:+ String q EmptyString).
      apply TrimRight_snoc. exact Hq.
Qed.

Lemma Trim_wrapped (s cutset : string) (q : ascii) :
  in_cutset q cutset = true ->
  strings_Trim (String q (s +:+ String q EmptyString)) cutset = strings_Trim s cutset.
Proof.
  intros Hq. unfold strings_Trim. cbn [strings_TrimLeft]. rewrite Hq.
  apply TrimRight_TrimLeft_snoc. exact Hq.
Qed.

End Checksum.

(** ** Checksums, quotes and names *)

Section SyncNames.

Context {Remote : Type}.
Variable E : Bucket -> string -> World Remote -> (bool * option error) * World Remote.
Variable G : Bucket -> string -> string -> World Remote -> option error * World Remote.
Variable render : error -> string.

(** X8. The local checksum is always thirty-two lowercase hex digits, so an
    ETag that is anything else once trimmed (capitals, or the dashed ETag of a
    multipart upload) never matches: a readable local file is fetched again on
    every run. *)
Theorem Run_fetches_unless_md5_hex (s : St) (w1 : World Remote) (n : Node) :
  Key (remoteFile (job s)) <> EmptyString ->
  E (b (job s)) (Key (remoteFile (job s))) (world s) = ((true, None), w1) ->
  fs w1 !! localPath (job s) = Some n ->
  isDir n = false ->
  readable n = true ->
  is_md5_hex (strings_Trim (ETag (remoteFile (job s))) (String quote_char " ")) = false ->
  fetch_calls (trace (Run E G s).2) = (fetch_calls (trace s) + 1)%nat.
Proof.
  intros Hkey HE Hnode Hdir Hread Hnot.
  pose proof (Run_compare_step E G s w1 n Hkey HE Hnode Hdir Hread) as Hstep.
  cbv zeta in Hstep.
  rewrite (not_md5_hex_differs (data n) _ Hnot) in Hstep.
  destruct Hstep as [Hcount _]. exact Hcount.
Qed.

(** X9. Quotes around the ETag make no difference to a run: with the ETag
    wrapped in a pair of quotes the run makes the same calls and log lines,
    leaves the same world and records the same errors. *)
Theorem Run_ignores_ETag_quotes (s : St) :
  let quoted_job := with_ETag (scenario.quoted (ETag (remoteFile (job s)))) (job s) in
  let s' := {| job := quoted_job; world := world s; trace := trace s |} in
  trace (Run E G s').2 = trace (Run E G s).2
  /\ world (Run E G s').2 = world (Run E G s).2
  /\ errors (job (Run E G s').2) = errors (job (Run E G s).2)
  /\ isComplete (job (Run E G s').2) = isComplete (job (Run E G s).2).
Proof.
  intros quoted_job s'. subst s' quoted_job. unfold_run. simpl.
  unfold scenario.quoted. rewrite (Trim_wrapped _ _ _ in_cutset_quote).
  split_run E G; repeat split.
Qed.

Lemma strings_Join_snoc (l : list string) (x sep : string) :
  strings_Join (l ++ [x]) sep =
  match l with
  | [] => x
  | _ => strings_Join l sep +:+ sep +:+ x
  end.
Proof.
  induction l as [|a l IH]; [reflexivity |].
  destruct l as [|c l]; [reflexivity |].
  change (strings_Join ((a :: c :: l) ++ [x]) sep)
    with (a +:+ sep +:+ strings_Join ((c :: l) ++ [x]) sep).
  rewrite IH.
  change (strings_Join (a :: c :: l) sep) with (a +:+ sep +:+ strings_Join (c :: l) sep).
  rewrite !append_assoc. reflexivity.
Qed.

(** X10. Recording one more error extends the message of [Error()] by a
    newline and the rendering of that error; on a job without errors the
    message is that rendering alone. *)
Theorem Error_after_addError (j : syncFromJob) (e : error) :
  Error render (addError (Some e) j) =
  Some (errors_New
          match Error render j with
          | None => render e
          | Some old => error_Error old +:+ newline +:+ render e
          end).
Proof.
  unfold Error. rewrite !Error_outputs_map. simpl. rewrite length_app. simpl.
  replace (List.length (errors j) + 1 =? 0)%nat with false
    by (symmetry; apply Nat.eqb_neq; lia).
  rewrite map_app. simpl. rewrite strings_Join_snoc.
  destruct (errors j) as [|e0 es]; reflexivity.
Qed.

(** X11. A tree that is in sync stays so: when the object exists, the local
    file is readable with the checksum of the ETag, and the existence check
    leaves the world alone, any number of runs makes no fetch, records no
    error and changes nothing. *)
Theorem Run_in_sync_is_stable (k : nat) (s : St) (n : Node) :
  Key (remoteFile (job s)) <> EmptyString ->
  E (b (job s)) (Key (remoteFile (job s))) (world s) = ((true, None), world s) ->
  fs (world s) !! localPath (job s) = Some n ->
  isDir n = false ->
  readable n = true ->
  checksums_equal (data n) (ETag (remoteFile (job s))) = true ->
  world (Run_times E G k s) = world s
  /\ errors (job (Run_times E G k s)) = errors (job s)
  /\ fetch_calls (trace (Run_times E G k s)) = fetch_calls (trace s).
Proof.
  intros Hkey HE Hnode Hdir Hread Hsame.
  induction k as [|k [IHw [IHe IHf]]]; [repeat split |].
  pose proof (Run_times_frame E G k s) as Hfix.
  unfold fixed_part in Hfix. inversion Hfix as [[Hd Hr Hb Ht Hp Hn]].
  change (Run_times E G (S k) s) with (Run E G (Run_times E G k s)).2.
  pose proof (Run_compare_step E G (Run_times E G k s) (world s) n) as Hstep.
  rewrite Hr, Hb, Hp, IHw in Hstep.
  specialize (Hstep Hkey HE Hnode Hdir Hread). cbv zeta in Hstep.
  rewrite Hsame in Hstep. destruct Hstep as [Hf [Hw He]].
  split; [exact Hw |]. split; [rewrite He; exact IHe | rewrite Hf; exact IHf].
Qed.

End SyncNames.

(** ** Job names *)

Section JobNames.

Lemma list_ascii_append (x y : string) :
  list_ascii_of_string (x +:+ y)
  = (list_ascii_of_string x ++ list_ascii_of_string y)%list.
Proof.
  induction x as [|c x IH]; [reflexivity |].
  change (c :: list_ascii_of_string (x +:+ y)
          = c :: (list_ascii_of_string x ++ list_ascii_of_string y)%list).
  f_equal. exact IH.
Qed.

Lemma decimal_no_dot (d : Decimal.uint) :
  Forall (fun c => c <> dot) (list_ascii_of_string (NilEmpty.string_of_uint d)).
Proof.
  induction d; simpl; constructor; try assumption; discriminate.
Qed.

Lemma Sprintf_d_inj (n m : nat) : Sprintf_d n = Sprintf_d m -> n = m.
Proof.
  unfold Sprintf_d. intros Heq.
  apply (f_equal NilEmpty.uint_of_string) in Heq.
  rewrite !NilEmpty.usu in Heq. injection Heq as Heq.
  apply (f_equal Nat.of_uint) in Heq.
  rewrite !DecimalNat.Unsigned.of_to in Heq. exact Heq.
Qed.

(** The last dot of a string splits it in one way only. *)
Lemma split_at_last_dot (p1 p2 d1 d2 : list ascii) :
  Forall (fun c => c <> dot) d1 ->
  Forall (fun c => c <> dot) d2 ->
  (p1 ++ dot :: d1 = p2 ++ dot :: d2)%list ->
  p1 = p2 /\ d1 = d2.
Proof.
  intros Hd1 Hd2. revert p2.
  induction p1 as [|c p1 IH]; intros [|c2 p2] Heq; simpl in Heq.
  - injection Heq as Heq. auto.
  - injection Heq as Hc Heq. subst d1. exfalso.
    apply Forall_app in Hd1 as [_ Hd1]. inversion Hd1 as [|? ? Hne _]. congruence.
  - injection Heq as Hc Heq. subst d2. exfalso.
    apply Forall_app in Hd2 as [_ Hd2]. inversion Hd2 as [|? ? Hne _]. congruence.
  - injection Heq as Hc Heq. subst c2.
    destruct (IH p2 Heq) as [-> ->]. auto.
Qed.

Lemma append_cancel_l (pre x y : string) : pre +:+ x = pre +:+ y -> x = y.
Proof.
  induction pre as [|c pre IH]; [auto |].
  change (String c (pre +:+ x) = String c (pre +:+ y) -> x = y).
  intros Heq. injection Heq as Heq. auto.
Qed.

(** X12. The ID of a sync job determines its local path and its job number:
    two jobs have the same ID only if they were made for the same path with
    the same number, so distinct job numbers give distinct IDs. *)
Theorem sync_job_ID_unique (bk1 bk2 : Bucket) (p1 p2 : string) (rf1 rf2 : s3_Key)
    (del1 del2 : bool) (n1 n2 : nat) :
  ID (newSyncFromJob bk1 p1 rf1 del1 n1) = ID (newSyncFromJob bk2 p2 rf2 del2 n2)
  <-> p1 = p2 /\ n1 = n2.
Proof.
  split; [| intros [-> ->]; reflexivity].
  unfold ID, newSyncFromJob. simpl. intros Heq.
  apply (f_equal list_ascii_of_string) in Heq.
  rewrite !list_ascii_append in Heq.
  change (list_ascii_of_string ".") with [dot] in Heq.
  rewrite !(app_assoc _ (list_ascii_of_string (Sprintf_d _))) in Heq.
  rewrite !(app_assoc (list_ascii_of_string _)) in Heq.
  apply app_inv_tail in Heq.
  rewrite <- !app_assoc in Heq. simpl in Heq.
  apply split_at_last_dot in Heq as [Hp Hd];
    [| apply decimal_no_dot | apply decimal_no_dot].
  split.
  - rewrite <- (string_of_list_ascii_of_string p1),
            <- (string_of_list_ascii_of_string p2), Hp. reflexivity.
  - apply Sprintf_d_inj.
    rewrite <- (string_of_list_ascii_of_string (Sprintf_d n1)),
            <- (string_of_list_ascii_of_string (Sprintf_d n2)), Hd. reflexivity.
Qed.

End JobNames.

(** * More on the repository build *)

Section BuildMore.

Import repobuilder.

Context {RepositoryConfig MongoDBVersion W : Type}.
Variable exec : list string -> W -> (string * option error) * W.
Variable signFile :
  Job (RepositoryConfig := RepositoryConfig) (MongoDBVersion := MongoDBVersion)
  -> string -> string -> bool -> W -> option error * W.
Variable buildIndex : RepositoryConfig -> string -> string -> W -> option error * W.

Local Abbreviation step := (step exec signFile buildIndex).
Local Abbreviation turn := (turn exec signFile buildIndex).
Local Abbreviation run_schedule := (run_schedule exec signFile buildIndex).
Local Abbreviation rebuildRepo := (rebuildRepo exec signFile buildIndex).
Local Abbreviation stable := (stable exec signFile buildIndex).
Local Abbreviation State :=
  (St (RepositoryConfig := RepositoryConfig) (MongoDBVersion := MongoDBVersion) (W := W)).

Ltac unfold_step :=
  cbv [repobuilder.step repobuilder.rebuildRepo rebuildRepo_body on_world emit
       on_job self wg_Done store_Output mbind mret M_bind M_ret].

Ltac split_step :=
  repeat match goal with
    | |- context [exec ?a ?w] => destruct (exec a w) as [[? ?] ?] eqn:?; simpl
    | |- context [signFile ?j ?f ?e ?o ?w] =>
        destruct (signFile j f e o w) as [? ?] eqn:?; simpl
    | |- context [buildIndex ?c ?d ?bk ?w] =>
        destruct (buildIndex c d bk w) as [? ?] eqn:?; simpl
    | |- context [match ?x with _ => _ end] =>
        lazymatch type of x with
        | bool => destruct x eqn:?; simpl
        | option _ => destruct x eqn:?; simpl
        end
    end.

(** ** The wait group *)

Lemma step_wg (d : string) (p : pc) (s : State) :
  wg (step d p s).2 =
  wg s - (if is_Returned p then 0
          else if is_Returned (step d p s).1 then 1 else 0).
Proof.
  destruct p; unfold_step; simpl; split_step; simpl; try discriminate; lia.
Qed.

Lemma returned_insert (pool : list (string * pc)) (i : nat) (old new : string * pc) :
  pool !! i = Some old ->
  (returned (<[i := new]> pool) + (if is_Returned old.2 then 1 else 0)
   = returned pool + (if is_Returned new.2 then 1 else 0))%nat.
Proof.
  unfold returned. revert i. induction pool as [|x pool IH]; intros [|i] Hi;
    simpl in *; try discriminate.
  - injection Hi as ->. lia.
  - specialize (IH i Hi). lia.
Qed.

Lemma turn_wg (pool : list (string * pc)) (s : State) (k : nat) :
  wg (turn (pool, s) k).2 + Z.of_nat (returned (turn (pool, s) k).1)
  = wg s + Z.of_nat (returned pool).
Proof.
  unfold repobuilder.turn. simpl.
  destruct (pool !! k) as [[d p]|] eqn:Hk; simpl; [| reflexivity].
  pose proof (step_wg d p s) as Hwg.
  destruct (step d p s) as [p' s'] eqn:Hstep. simpl in *.
  pose proof (returned_insert pool k (d, p) (d, p') Hk) as Hret. simpl in Hret.
  assert (Hsame : is_Returned p = true -> is_Returned p' = true).
  { destruct p; try discriminate. intros _.
    unfold_step. injection Hstep as <- _. reflexivity. }
  revert Hwg Hret Hsame.
  destruct (is_Returned p), (is_Returned p'); intros Hwg Hret Hsame;
    try lia; specialize (Hsame eq_refl); discriminate.
Qed.

Lemma returned_spawn (dirs : list string) : returned (spawn dirs) = 0%nat.
Proof. induction dirs as [|d dirs IH]; [reflexivity | exact IH]. Qed.

Lemma returned_all (pool : list (string * pc)) :
  all_returned pool = true -> returned pool = List.length pool.
Proof.
  unfold all_returned, returned. induction pool as [|x pool IH]; [reflexivity |].
  simpl. intros Hall. apply andb_prop in Hall as [Hx Hrest].
  rewrite Hx, (IH Hrest). reflexivity.
Qed.

(** X13. [wg.Done()] runs once per pipeline, when it returns and on every
    path: one call of [rebuildRepo] lowers the counter by one, and under any
    schedule the counter has dropped by the number of pipelines that have
    returned, so by the number launched once all have. *)
Theorem wait_group_counts_returns (dirs : list string) (s0 : State) (d : string)
    (sched : list nat) :
  wg (rebuildRepo d s0).2 = wg s0 - 1
  /\ wg (run_schedule sched (spawn dirs, s0)).2
     = wg s0 - Z.of_nat (returned (run_schedule sched (spawn dirs, s0)).1)
  /\ (all_returned (run_schedule sched (spawn dirs, s0)).1 = true ->
      wg (run_schedule sched (spawn dirs, s0)).2 = wg s0 - Z.of_nat (List.length dirs)).
Proof.
  assert (Hinv : forall pool (s : State),
            wg (run_schedule sched (pool, s)).2
            + Z.of_nat (returned (run_schedule sched (pool, s)).1)
            = wg s + Z.of_nat (returned pool)).
  { induction sched as [|k sched' IH]; intros pool s; [reflexivity |].
    unfold repobuilder.run_schedule. simpl.
    pose proof (turn_wg pool s k) as Hturn.
    destruct (turn (pool, s) k) as [pool1 s1]. simpl in Hturn.
    fold (run_schedule sched' (pool1, s1)). rewrite IH. exact Hturn. }
  split; [unfold_step; split_step; simpl; lia |].
  pose proof (Hinv (spawn dirs) s0) as H0. rewrite returned_spawn in H0.
  split; [lia |].
  intros Hall. rewrite (returned_all _ Hall) in H0.
  assert (Hlen : List.length (run_schedule sched (spawn dirs, s0)).1 = List.length dirs).
  { destruct (round_remaining exec signFile buildIndex sched (spawn dirs) s0 0)
      as [Hl _]. rewrite Hl. apply length_map. }
  rewrite Hlen in H0. lia.
Qed.

(** ** Errors and entries under any schedule *)

Arguments repobuilder.names_dir : simpl never.

Lemma names_dir_stage (d : string) (cause : error) :
  names_dir d (withMessage cause (createrepo_msg d)) = true
  /\ names_dir d (withMessage cause (sign_msg d)) = true
  /\ names_dir d (withMessage cause (index_msg d)) = true.
Proof.
  unfold names_dir. rewrite !String.eqb_refl, !orb_true_r. auto.
Qed.

Lemma one_error_stable (d : string) (es0 : list error) :
  stable d (fun p v =>
    exists new,
      v_errors v = (es0 ++ new)%list
      /\ (List.length new <= 1)%nat
      /\ (p <> Returned -> new = [])).
Proof.
  intros p s [new [Heq [Hlen Hnil]]]. simpl in Heq.
  destruct p;
    try (assert (Hnew : new = []) by (apply Hnil; discriminate);
         subst new; rewrite app_nil_r in Heq);
    unfold_step; simpl; split_step; unfold view; simpl;
    rewrite ?errors_naming_snoc; simpl;
    repeat match goal with
      | |- context [names_dir d (withMessage ?c _)] =>
          let H1 := fresh in
          let H2 := fresh in
          let H3 := fresh in
          destruct (names_dir_stage d c) as [H1 [H2 H3]];
          rewrite ?H1, ?H2, ?H3; clear H1 H2 H3
      end;
    rewrite ?Heq;
    first [ exists []; split; [rewrite app_nil_r; reflexivity |];
            split; [simpl; lia | intros _; reflexivity]
          | eexists [_]; split; [reflexivity |];
            split; [simpl; lia | intros Hne; congruence]
          | exists new; split; [reflexivity |]; split; [exact Hlen | exact Hnil] ].
Qed.

Lemma step_errors_grow (d : string) (p : pc) (s : State) :
  exists new, Errors (job (step d p s).2) = (Errors (job s) ++ new)%list.
Proof.
  destruct p; unfold_step; simpl; split_step;
    first [ exists []; symmetry; apply app_nil_r | eexists [_]; reflexivity ].
Qed.

(** X14. Under any schedule of the pipelines of distinct directories, no
    recorded error is lost or moved: the error list of the job only grows at
    its end, and each pipeline adds at most one error that names its
    directory. *)
Theorem pipelines_record_at_most_one_error (dirs : list string) (s0 : State)
    (d : string) (sched : list nat) :
  NoDup dirs ->
  d ∈ dirs ->
  (exists added,
     Errors (job (run_schedule sched (spawn dirs, s0)).2)
     = (Errors (job s0) ++ added)%list)
  /\ (exists new,
       errors_naming d (Errors (job (run_schedule sched (spawn dirs, s0)).2))
       = (errors_naming d (Errors (job s0)) ++ new)%list
       /\ (List.length new <= 1)%nat).
Proof.
  intros Hnd Hin. split.
  - generalize (spawn dirs) as pool. revert s0.
    induction sched as [|k sched' IH]; intros s0 pool.
    + exists []. symmetry. apply app_nil_r.
    + unfold repobuilder.run_schedule. simpl.
      assert (Hturn : exists new,
                Errors (job (turn (pool, s0) k).2) = (Errors (job s0) ++ new)%list).
      { unfold repobuilder.turn. simpl.
        destruct (pool !! k) as [[d' q]|]; simpl.
        - destruct (step_errors_grow d' q s0) as [new Hnew].
          destruct (step d' q s0) as [q' s']. exists new. exact Hnew.
        - exists []. symmetry. apply app_nil_r. }
      destruct Hturn as [new Hnew].
      destruct (turn (pool, s0) k) as [pool1 s1]. simpl in Hnew.
      fold (run_schedule sched' (pool1, s1)).
      destruct (IH s1 pool1) as [added Hadded].
      exists (new ++ added)%list. rewrite Hadded, Hnew, app_assoc. reflexivity.
  - assert (Hnd' : NoDup (spawn dirs).*1)
      by (rewrite (spawn_dirs dirs); exact Hnd).
    destruct (spawn_lookup dirs d Hin) as [i Hi].
    destruct (run_schedule_keeps exec signFile buildIndex d _ sched
                (one_error_stable d (errors_naming d (Errors (job s0))))
                (spawn dirs) s0 i AtStart Hnd' Hi)
      as [p [_ [new [Heq [Hlen _]]]]].
    { exists []. split; [symmetry; apply app_nil_r |]. split; [simpl; lia | reflexivity]. }
    exists new. split; [exact Heq | exact Hlen].
Qed.

Lemma turn_outsider (pool : list (string * pc)) (s : State) (k : nat) (d : string) :
  d ∉ pool.*1 ->
  view d (turn (pool, s) k).2 = view d s
  /\ (turn (pool, s) k).1.*1 = pool.*1.
Proof.
  intros Hout. unfold repobuilder.turn. simpl.
  destruct (pool !! k) as [[d' q]|] eqn:Hk; simpl; [| auto].
  assert (Hne : d <> d').
  { intros ->. apply Hout. apply list_elem_of_lookup. exists k.
    rewrite list_lookup_fmap, Hk. reflexivity. }
  pose proof (step_frame exec signFile buildIndex d d' q s Hne) as Hfr.
  destruct (step d' q s) as [q' s']. simpl in *. split; [exact Hfr |].
  rewrite list_fmap_insert. simpl. apply list_insert_id.
  rewrite list_lookup_fmap, Hk. reflexivity.
Qed.

(** X15. A directory that no pipeline is rebuilding is not touched, whatever
    the schedule: its output entry, the errors that name it and its sign and
    index calls are as before. *)
Theorem pipelines_leave_other_directories (dirs : list string) (s0 : State)
    (d : string) (sched : list nat) :
  d ∉ dirs ->
  Output (job (run_schedule sched (spawn dirs, s0)).2) !! d = Output (job s0) !! d
  /\ errors_naming d (Errors (job (run_schedule sched (spawn dirs, s0)).2))
     = errors_naming d (Errors (job s0))
  /\ stage_calls d (trace (run_schedule sched (spawn dirs, s0)).2)
     = stage_calls d (trace s0).
Proof.
  intros Hout.
  assert (Hview : view d (run_schedule sched (spawn dirs, s0)).2 = view d s0).
  { assert (Hout' : d ∉ (spawn dirs).*1) by (rewrite (spawn_dirs dirs); exact Hout).
    revert Hout'. generalize (spawn dirs) as pool. revert s0.
    induction sched as [|k sched' IH]; intros s0 pool Hout'; [reflexivity |].
    unfold repobuilder.run_schedule. simpl.
    destruct (turn_outsider pool s0 k d Hout') as [Hv Hfst].
    destruct (turn (pool, s0) k) as [pool1 s1]. simpl in *.
    fold (run_schedule sched' (pool1, s1)).
    rewrite (IH s1 pool1); [exact Hv | rewrite Hfst; exact Hout']. }
  split; [exact (f_equal v_output Hview) |].
  split; [exact (f_equal v_errors Hview) | exact (f_equal v_calls Hview)].
Qed.

(** ** The stages of one pipeline *)

Lemma calls_of_app (tr more : list (string * Event)) :
  calls_of (tr ++ more) = (calls_of tr ++ calls_of more)%list.
Proof. unfold calls_of. rewrite map_app, List.filter_app. reflexivity. Qed.

(** X16. A real run whose signature fails: the pipeline records the one sign
    error and never builds the index page, but the output of the indexer has
    already been stored and stays in the map. *)
Theorem rebuildRepo_sign_failure (d : string) (s : State) (out : string)
    (w1 w2 : W) (e : error) :
  DryRun (job s) = false ->
  exec (cmd_Args d) (world s) = ((out, None), w1) ->
  signFile (set_Output (<[d := out]> (Output (job s))) (job s))
           (metaDataFile d) "asc" false w1 = (Some e, w2) ->
  Errors (job (rebuildRepo d s).2)
  = (Errors (job s) ++ [withMessage e (sign_msg d)])%list
  /\ Output (job (rebuildRepo d s).2) = <[d := out]> (Output (job s))
  /\ calls_of (trace (rebuildRepo d s).2)
     = (calls_of (trace s)
        ++ [CallCombinedOutput (cmd_Args d);
            CallSignFile (metaDataFile d) "asc" false])%list
  /\ world (rebuildRepo d s).2 = w2.
Proof.
  intros Hdry Hexec Hsign. unfold_step. rewrite Hdry. simpl.
  rewrite Hexec. simpl. rewrite Hsign. simpl.
  repeat split. rewrite !calls_of_app. simpl. rewrite !app_nil_r, <- !app_assoc.
  reflexivity.
Qed.

(** X17. A real run whose indexer and signature succeed: the three calls are
    made in the order createrepo, sign, index, the output is stored, and the
    only error there can be is the one of the index page. *)
Theorem rebuildRepo_reaches_index (d : string) (s : State) (out : string)
    (w1 w2 : W) :
  DryRun (job s) = false ->
  exec (cmd_Args d) (world s) = ((out, None), w1) ->
  signFile (set_Output (<[d := out]> (Output (job s))) (job s))
           (metaDataFile d) "asc" false w1 = (None, w2) ->
  let indexed := buildIndex (Conf (job s)) d (Bucket (Distro (job s))) w2 in
  Errors (job (rebuildRepo d s).2)
  = match indexed.1 with
    | None => Errors (job s)
    | Some e => (Errors (job s) ++ [withMessage e (index_msg d)])%list
    end
  /\ Output (job (rebuildRepo d s).2) = <[d := out]> (Output (job s))
  /\ calls_of (trace (rebuildRepo d s).2)
     = (calls_of (trace s)
        ++ [CallCombinedOutput (cmd_Args d);
            CallSignFile (metaDataFile d) "asc" false;
            CallBuildIndexPage d (Bucket (Distro (job s)))])%list
  /\ world (rebuildRepo d s).2 = indexed.2.
Proof.
  intros Hdry Hexec Hsign indexed. subst indexed. unfold_step. rewrite Hdry. simpl.
  rewrite Hexec. simpl. rewrite Hsign. simpl.
  destruct (buildIndex _ _ _ _) as [[e|] w3]; simpl;
    repeat split; rewrite !calls_of_app; simpl; rewrite !app_nil_r, <- !app_assoc;
    reflexivity.
Qed.

End BuildMore.

(** * Paths *)

Section Paths.

Import repobuilder.

Lemma cons_append (c : ascii) (x y : string) : String c x +:+ y = String c (x +:+ y).
Proof. reflexivity. Qed.

Lemma nil_append (y : string) : EmptyString +:+ y = y.
Proof. reflexivity. Qed.

Lemma append_nonempty (x y : string) : y <> EmptyString -> x +:+ y <> EmptyString.
Proof. destruct x; [rewrite nil_append; auto | rewrite cons_append; discriminate]. Qed.

Lemma split_slash_nonempty (s : string) : split_slash s <> [].
Proof.
  destruct s as [|c s]; simpl; [discriminate |].
  destruct (Ascii.eqb c slash); [discriminate |].
  destruct (split_slash s); discriminate.
Qed.

Lemma split_slash_app (x y : string) :
  split_slash (x +:+ String slash y) = (split_slash x ++ split_slash y)%list.
Proof.
  induction x as [|c x IH].
  - rewrite nil_append. simpl. reflexivity.
  - rewrite cons_append. simpl. rewrite IH.
    destruct (Ascii.eqb c slash); [reflexivity |].
    pose proof (split_slash_nonempty x) as Hne.
    destruct (split_slash x); [contradiction | reflexivity].
Qed.

Lemma split_slash_no_slash (e : string) : no_slash e = true -> split_slash e = [e].
Proof.
  induction e as [|c e IH]; [reflexivity |].
  simpl. intros H. apply andb_prop in H as [Hc He].
  apply negb_true_iff in Hc. rewrite Hc, (IH He). reflexivity.
Qed.

Lemma plain_no_slash (e : string) : plain e = true -> no_slash e = true.
Proof. unfold plain. intros H. apply andb_prop in H as [_ H]. exact H. Qed.

Lemma plain_nonempty (e : string) : plain e = true -> e <> EmptyString.
Proof.
  unfold plain. intros H Heq. subst e. discriminate.
Qed.

Lemma clean_step_plain (rooted : bool) (kept : list string) (e : string) :
  plain e = true -> clean_step rooted kept e = e :: kept.
Proof.
  unfold plain, clean_step. intros H.
  apply andb_prop in H as [H _]. apply andb_prop in H as [H H2].
  apply andb_prop in H as [H0 H1].
  apply negb_true_iff in H0, H1, H2. rewrite H0, H1, H2. reflexivity.
Qed.

Lemma fold_clean_plain (rooted : bool) (l : list string) :
  forallb plain l = true ->
  forall kept, fold_left (clean_step rooted) l kept = (rev l ++ kept)%list.
Proof.
  induction l as [|e l IH]; intros Hl kept; [reflexivity |].
  simpl in Hl. apply andb_prop in Hl as [He Hl].
  simpl. rewrite (clean_step_plain _ _ _ He), (IH Hl).
  rewrite <- app_assoc. reflexivity.
Qed.

Lemma strings_Join_cons (e : string) (l : list string) (sep : string) :
  l <> [] -> strings_Join (e :: l) sep = e +:+ sep +:+ strings_Join l sep.
Proof. destruct l; [contradiction | reflexivity]. Qed.

Lemma strings_Join_app (l1 l2 : list string) (sep : string) :
  l1 <> [] -> l2 <> [] ->
  strings_Join (l1 ++ l2) sep = strings_Join l1 sep +:+ sep +:+ strings_Join l2 sep.
Proof.
  intros H1 H2. induction l1 as [|e l1 IH]; [contradiction |].
  destruct l1 as [|e' l1].
  - simpl app. apply strings_Join_cons. exact H2.
  - change ((e :: e' :: l1) ++ l2)%list with (e :: ((e' :: l1) ++ l2))%list.
    rewrite strings_Join_cons by discriminate.
    rewrite IH by discriminate.
    rewrite (strings_Join_cons e (e' :: l1)) by discriminate.
    rewrite !append_assoc. reflexivity.
Qed.

Lemma split_slash_Join (l : list string) :
  forallb plain l = true -> l <> [] -> split_slash (strings_Join l "/") = l.
Proof.
  induction l as [|e l IH]; intros Hl Hne; [contradiction |].
  simpl in Hl. apply andb_prop in Hl as [He Hl].
  destruct l as [|e' l].
  - simpl. apply split_slash_no_slash, plain_no_slash, He.
  - rewrite strings_Join_cons by discriminate.
    change ("/" +:+ ?y) with (String slash y).
    rewrite split_slash_app, (split_slash_no_slash e (plain_no_slash e He)).
    rewrite IH by (auto; discriminate). reflexivity.
Qed.

Lemma Join_plain_nonempty (l : list string) :
  forallb plain l = true -> l <> [] -> strings_Join l "/" <> EmptyString.
Proof.
  destruct l as [|e l]; intros Hl Hne; [contradiction |].
  simpl in Hl. apply andb_prop in Hl as [He _].
  pose proof (plain_nonempty e He) as Hnz.
  destruct l as [|e' l]; [exact Hnz |].
  rewrite strings_Join_cons by discriminate.
  destruct e; [contradiction | rewrite cons_append; discriminate].
Qed.

Lemma prefix_slash_append (x y : string) :
  x <> EmptyString -> String.prefix "/" (x +:+ y) = String.prefix "/" x.
Proof.
  destruct x as [|c x]; [contradiction |]. intros _.
  rewrite cons_append.
  change (String.prefix "/" (String c (x +:+ y)))
    with (if ascii_dec slash c then String.prefix EmptyString (x +:+ y) else false).
  change (String.prefix "/" (String c x))
    with (if ascii_dec slash c then String.prefix EmptyString x else false).
  assert (Hnil : forall z, String.prefix EmptyString z = true)
    by (intros z; destruct z; reflexivity).
  destruct (ascii_dec slash c); [| reflexivity].
  rewrite !Hnil. reflexivity.
Qed.

Lemma eqb_empty_false (x : string) : x <> EmptyString -> String.eqb x EmptyString = false.
Proof. intros H. apply String.eqb_neq. exact H. Qed.

(** Cleaning a directory followed by plain elements: what cleaning leaves of
    the directory, then the elements. *)
Lemma filepath_Clean_below (dir : string) (l : list string) :
  dir <> EmptyString -> forallb plain l = true -> l <> [] ->
  let rooted := String.prefix "/" dir in
  filepath_Clean (dir +:+ "/" +:+ strings_Join l "/") =
    (if rooted then "/" else EmptyString)
    +:+ strings_Join
          (rev (fold_left (clean_step rooted) (split_slash dir) []) ++ l) "/".
Proof.
  intros Hdir Hl Hne rooted. subst rooted. unfold filepath_Clean.
  rewrite (prefix_slash_append dir _ Hdir).
  change ("/" +:+ strings_Join l "/") with (String slash (strings_Join l "/")).
  rewrite split_slash_app, (split_slash_Join l Hl Hne), fold_left_app.
  rewrite (fold_clean_plain _ l Hl), rev_app_distr, rev_involutive.
  set (kept := rev (fold_left _ (split_slash dir) [])).
  rewrite eqb_empty_false; [reflexivity |].
  destruct (String.prefix "/" dir).
  - change ("/" +:+ ?y) with (String slash y). discriminate.
  - rewrite nil_append. destruct kept as [|k kept].
    + simpl. apply Join_plain_nonempty; assumption.
    + rewrite (strings_Join_app (k :: kept) l) by (auto; discriminate).
      apply append_nonempty.
      change ("/" +:+ ?y) with (String slash y). discriminate.
Qed.

Lemma filepath_Clean_fixed (dir : string) (l : list string) :
  filepath_Clean dir = dir -> dir <> "." -> dir <> "/" ->
  forallb plain l = true -> l <> [] ->
  filepath_Clean (below dir l) = below dir l.
Proof.
  intros Hclean Hdot Hroot Hl Hne. unfold below.
  assert (Hdir : dir <> EmptyString).
  { intros ->. vm_compute in Hclean. discriminate. }
  rewrite (filepath_Clean_below dir l Hdir Hl Hne). simpl.
  unfold filepath_Clean in Hclean.
  set (kept := rev (fold_left _ (split_slash dir) [])) in *.
  destruct (String.eqb _ EmptyString) eqn:Hout in Hclean; [congruence |].
  destruct kept as [|k kept].
  - exfalso. destruct (String.prefix "/" dir); simpl in Hclean, Hout.
    + apply Hroot. symmetry. exact Hclean.
    + discriminate.
  - rewrite (strings_Join_app (k :: kept) l) by (auto; discriminate).
    rewrite <- append_assoc, Hclean. reflexivity.
Qed.

Lemma below_not_dot (dir : string) (l : list string) :
  dir <> EmptyString -> below dir l <> "." /\ below dir l <> "/".
Proof.
  unfold below. destruct dir as [|c dir]; [contradiction |]. intros _.
  rewrite cons_append.
  assert (Hrest : dir +:+ "/" +:+ strings_Join l "/" <> EmptyString).
  { apply append_nonempty. change ("/" +:+ ?y) with (String slash y). discriminate. }
  split; intros H; injection H as _ H; contradiction.
Qed.

Lemma below_below (dir : string) (l1 l2 : list string) :
  l1 <> [] -> l2 <> [] -> below (below dir l1) l2 = below dir (l1 ++ l2).
Proof.
  intros H1 H2. unfold below. rewrite (strings_Join_app l1 l2) by assumption.
  rewrite !append_assoc. reflexivity.
Qed.

Lemma filepath_Join_below (dir : string) (l : list string) :
  filepath_Clean dir = dir -> dir <> "." -> dir <> "/" ->
  forallb plain l = true -> l <> [] ->
  filepath_Join (dir :: l) = below dir l.
Proof.
  intros Hclean Hdot Hroot Hl Hne.
  assert (Hdir : dir <> EmptyString).
  { intros ->. vm_compute in Hclean. discriminate. }
  unfold filepath_Join. simpl. rewrite (eqb_empty_false dir Hdir). simpl.
  assert (Hfilter : List.filter (fun e => negb (String.eqb e EmptyString)) l = l).
  { clear Hne. induction l as [|e l IH]; [reflexivity |].
    simpl in Hl. apply andb_prop in Hl as [He Hl]. simpl.
    rewrite (eqb_empty_false e (plain_nonempty e He)). simpl. rewrite (IH Hl).
    reflexivity. }
  rewrite Hfilter. destruct l as [|e l]; [contradiction |].
  apply filepath_Clean_fixed; [assumption .. | discriminate].
Qed.

End Paths.

Section ConstructorMore.

Import repobuilder.

Context {RepositoryConfig MongoDBVersion W : Type}.
Variable buildRepoJob :
  Job (RepositoryConfig := RepositoryConfig) (MongoDBVersion := MongoDBVersion).
Variable os_Getwd : string * option error.
Variable NewMongoDBVersion : string -> MongoDBVersion + error.
Variable linkPackages :
  Job (RepositoryConfig := RepositoryConfig) (MongoDBVersion := MongoDBVersion)
  -> string -> W -> option error * W.

Local Abbreviation NewBuildRPMRepo :=
  (NewBuildRPMRepo buildRepoJob os_Getwd NewMongoDBVersion).
Local Abbreviation injectPackage := (injectPackage linkPackages).

(** X18. The constructor returns a job or an error, never both and never
    neither; there is a job exactly when the working directory is known and
    the version parses, and a failure of [os.Getwd] is reported before the
    version is looked at. *)
Theorem NewBuildRPMRepo_job_xor_error (conf : RepositoryConfig)
    (distro : RepositoryDefinition) (version arch profile : string)
    (pkgs : list string) (n : nat) :
  let r := NewBuildRPMRepo conf distro version arch profile pkgs n in
  (is_Some r.1 <-> r.2 = None)
  /\ (is_Some r.1 <->
       os_Getwd.2 = None /\ exists rel, NewMongoDBVersion version = inl rel)
  /\ r.2 = match os_Getwd.2 with
           | Some e => Some e
           | None =>
               match NewMongoDBVersion version with
               | inr e => Some e
               | inl _ => None
               end
           end.
Proof.
  unfold repobuilder.NewBuildRPMRepo.
  destruct os_Getwd as [wd [werr|]]; simpl;
    [| destruct (NewMongoDBVersion version) as [rel|perr] eqn:Hparse; simpl];
    repeat split; intros; eauto;
    repeat match goal with
      | H : is_Some None |- _ => destruct H as [? H]
      | H : _ /\ _ |- _ => destruct H
      | H : exists _, _ |- _ => destruct H
      end;
    congruence.
Qed.

(** X19. The names of build jobs tell the job numbers apart: two jobs that
    the constructor returns have the same name exactly when they were given
    the same number. *)
Theorem build_job_Name_unique (conf1 conf2 : RepositoryConfig)
    (distro1 distro2 : RepositoryDefinition)
    (version1 version2 arch1 arch2 profile1 profile2 : string)
    (pkgs1 pkgs2 : list string) (n1 n2 : nat) (r1 r2 : BuildRPMRepoJob) :
  NewBuildRPMRepo conf1 distro1 version1 arch1 profile1 pkgs1 n1 = (Some r1, None) ->
  NewBuildRPMRepo conf2 distro2 version2 arch2 profile2 pkgs2 n2 = (Some r2, None) ->
  (Name (Job_ r1) = Name (Job_ r2) <-> n1 = n2).
Proof.
  unfold repobuilder.NewBuildRPMRepo.
  destruct os_Getwd as [wd [werr|]]; [discriminate |].
  destruct (NewMongoDBVersion version1); [| discriminate].
  destruct (NewMongoDBVersion version2); [| discriminate].
  intros [= <-] [= <-]. simpl. split.
  - intros Heq. apply append_cancel_l in Heq. apply Sprintf_d_inj. exact Heq.
  - intros ->. reflexivity.
Qed.

(** X20. A local directory that is clean, and neither the dot nor the root,
    a repository name and an architecture that are plain names:
    [injectPackage] returns the path local/repoName/arch whether or not
    linking succeeds, links into the RPMS directory below that path, leaves
    the machine as [linkPackages] left it, and returns the error of
    [linkPackages] wrapped with the path, or nil when there was none. *)
Theorem injectPackage_result (j : Job) (local repoName : string) (w : W) :
  filepath_Clean local = local ->
  local <> "." ->
  local <> "/" ->
  plain repoName = true ->
  plain (Arch j) = true ->
  let repoPath := local +:+ "/" +:+ repoName +:+ "/" +:+ Arch j in
  let linked := linkPackages j (repoPath +:+ "/RPMS") w in
  injectPackage j local repoName w =
    ((repoPath,
      match linked.1 with
      | None => None
      | Some cause => Some (withMessage cause ("linking packages for " +:+ repoPath))
      end),
     linked.2).
Proof.
  intros Hclean Hdot Hroot Hrepo Harch repoPath linked.
  assert (Hl : forallb plain [repoName; Arch j] = true)
    by (simpl; rewrite Hrepo, Harch; reflexivity).
  assert (Hlocal : local <> EmptyString).
  { intros ->. vm_compute in Hclean. discriminate. }
  assert (Hpath : filepath_Join [local; repoName; Arch j] = repoPath).
  { rewrite (filepath_Join_below local [repoName; Arch j]); try assumption;
      [reflexivity | discriminate]. }
  assert (Hrpms : filepath_Join [repoPath; "RPMS"] = repoPath +:+ "/RPMS").
  { destruct (below_not_dot local [repoName; Arch j] Hlocal) as [Hd Hr].
    rewrite (filepath_Join_below repoPath ["RPMS"]);
      [reflexivity | | exact Hd | exact Hr | reflexivity | discriminate].
    apply (filepath_Clean_fixed local [repoName; Arch j]); try assumption.
    discriminate. }
  unfold repobuilder.injectPackage. rewrite Hpath, Hrpms.
  subst linked. destruct (linkPackages _ _ _) as [[cause|] w']; reflexivity.
Qed.

End ConstructorMore.

(** * The further properties on the stubs *)

Section MoreInstances.

Import scenario.

Let lower_etag : string := quoted "5d41402abc4b2a76b9719d911017c592".
Let upper_etag : string := "5D41402ABC4B2A76B9719D911017C592".
Let multipart_etag : string := quoted "5d41402abc4b2a76b9719d911017c592-3".

Lemma Run_exists_failure_witness :
  let s := start (hello_job lower_etag false) hello_world in
  trace (Run down_Exists stub_Get s).2 = [CallExists "dist/hello.txt"]
  /\ world (Run down_Exists stub_Get s).2 = hello_world
  /\ errors (job (Run down_Exists stub_Get s).2) =
       [withMessage (errors_New "connection timed out")
          "problem checking if the file 'dist/hello.txt' exists"].
Proof.
  intros s.
  assert (Hkey : Key (remoteFile (job s)) <> EmptyString) by discriminate.
  destruct (Run_exists_failure down_Exists stub_Get s false
              (errors_New "connection timed out") hello_world Hkey eq_refl)
    as [Htr [Hw [Herr _]]].
  split; [exact Htr |]. split; [exact Hw | exact Herr].
Defined.

Lemma Run_missing_remote_keeps_local_witness :
  let s := start (keep_job lower_etag false) two_files in
  world (Run stub_Exists stub_Get s).2 = two_files
  /\ errors (job (Run stub_Exists stub_Get s).2) = [].
Proof.
  intros s.
  assert (Hkey : Key (remoteFile (job s)) <> EmptyString) by discriminate.
  destruct (Run_missing_remote_keeps_local stub_Exists stub_Get s two_files
              Hkey eq_refl eq_refl) as [_ [Hw Herr]].
  split; [exact Hw | exact Herr].
Defined.

Lemma Run_missing_local_fetches_once_witness :
  let s := start (hello_job lower_etag false) fresh_world in
  trace (Run stub_Exists stub_Get s).2 =
    [CallExists "dist/hello.txt"; CallStat "/srv/hello.txt";
     CallGet "dist/hello.txt" "/srv/hello.txt"]
  /\ errors (job (Run stub_Exists stub_Get s).2) = [].
Proof.
  intros s.
  assert (Hkey : Key (remoteFile (job s)) <> EmptyString) by discriminate.
  destruct (Run_missing_local_fetches_once stub_Exists stub_Get s fresh_world
              Hkey eq_refl eq_refl) as [Htr [_ Herr]].
  split; [exact Htr | exact Herr].
Defined.

Lemma Run_mismatch_fetch_failure_witness :
  let s := start (hello_job "abc" false) hello_world in
  errors (job (Run stub_Exists down_Get s).2) =
    [withMessage (withMessage (errors_New "connection reset")
                    "problem with s3 get during sync")
       "problem fetching file 'dist/hello.txt' during sync"]
  /\ Completed (job (Run stub_Exists down_Get s).2) = true.
Proof.
  intros s.
  assert (Hkey : Key (remoteFile (job s)) <> EmptyString) by discriminate.
  assert (Hdiff : checksums_equal "hello" "abc" = false) by (vm_compute; reflexivity).
  destruct (Run_mismatch_fetch_failure stub_Exists down_Get s hello_world hello_world
              (mkNode false "hello" true true) (errors_New "connection reset")
              Hkey eq_refl eq_refl eq_refl eq_refl Hdiff eq_refl)
    as [Herr [_ [_ Hdone]]].
  split; [exact Herr | exact Hdone].
Defined.

Lemma Run_delete_stays_inside_witness :
  let s := start (hello_job lower_etag false) two_files in
  fs (world (Run stub_Exists stub_Get s).2) !! "/srv/other.txt"
  = fs two_files !! "/srv/other.txt".
Proof.
  intros s.
  assert (Hkey : Key (remoteFile (job s)) <> EmptyString) by discriminate.
  apply (Run_delete_stays_inside stub_Exists stub_Get s two_files "/srv/other.txt"
           Hkey eq_refl eq_refl eq_refl).
  vm_compute. reflexivity.
Defined.

Lemma Run_fetches_unless_md5_hex_witness :
  let s := start (hello_job multipart_etag false) hello_world in
  fetch_calls (trace (Run stub_Exists stub_Get s).2) = (fetch_calls (trace s) + 1)%nat.
Proof.
  intros s.
  assert (Hkey : Key (remoteFile (job s)) <> EmptyString) by discriminate.
  apply (Run_fetches_unless_md5_hex stub_Exists stub_Get s hello_world
           (mkNode false "hello" true true) Hkey eq_refl eq_refl eq_refl eq_refl).
  vm_compute. reflexivity.
Defined.

Lemma Run_in_sync_is_stable_witness :
  let s := start (hello_job lower_etag false) hello_world in
  world (Run_times stub_Exists stub_Get 3 s) = world s
  /\ errors (job (Run_times stub_Exists stub_Get 3 s)) = errors (job s)
  /\ fetch_calls (trace (Run_times stub_Exists stub_Get 3 s)) = fetch_calls (trace s).
Proof.
  intros s.
  assert (Hkey : Key (remoteFile (job s)) <> EmptyString) by discriminate.
  assert (Hsame : checksums_equal "hello" lower_etag = true) by (vm_compute; reflexivity).
  apply (Run_in_sync_is_stable stub_Exists stub_Get 3 s (mkNode false "hello" true true)
           Hkey eq_refl eq_refl eq_refl eq_refl Hsame).
Defined.

End MoreInstances.

Section MoreBuildInstances.

Import build_scenario.

Local Abbreviation run_stub :=
  (repobuilder.run_schedule stub_exec stub_signFile stub_buildIndex).
Local Abbreviation rebuild_stub :=
  (repobuilder.rebuildRepo stub_exec stub_signFile stub_buildIndex).

Lemma three_dirs_NoDup : NoDup three_dirs.
Proof. apply (bool_decide_unpack _). vm_compute. exact I. Qed.

Lemma wait_group_counts_returns_witness :
  repobuilder.wg (run_stub mixed_schedule (repobuilder.spawn three_dirs, start false)).2 = 0.
Proof.
  destruct (wait_group_counts_returns stub_exec stub_signFile stub_buildIndex
              three_dirs (start false) "repo/i386" mixed_schedule) as [_ [_ Hall]].
  rewrite Hall; [reflexivity | vm_compute; reflexivity].
Defined.

Lemma pipelines_record_at_most_one_error_witness :
  exists new,
    repobuilder.errors_naming "repo/i386"
      (repobuilder.Errors
         (repobuilder.job
            (run_stub mixed_schedule (repobuilder.spawn three_dirs, start false)).2))
    = (repobuilder.errors_naming "repo/i386"
         (repobuilder.Errors (repobuilder.job (start false))) ++ new)%list
    /\ (List.length new <= 1)%nat.
Proof.
  assert (Hin : "repo/i386" ∈ three_dirs) by (unfold three_dirs; repeat constructor).
  destruct (pipelines_record_at_most_one_error stub_exec stub_signFile stub_buildIndex
              three_dirs (start false) "repo/i386" mixed_schedule
              three_dirs_NoDup Hin) as [_ Hone].
  exact Hone.
Defined.

Lemma pipelines_leave_other_directories_witness :
  repobuilder.Output
    (repobuilder.job
       (run_stub mixed_schedule (repobuilder.spawn three_dirs, start false)).2)
    !! "repo/ppc64le"
  = repobuilder.Output (repobuilder.job (start false)) !! "repo/ppc64le".
Proof.
  assert (Hout : "repo/ppc64le" ∉ three_dirs)
    by (apply (bool_decide_unpack _); vm_compute; exact I).
  destruct (pipelines_leave_other_directories stub_exec stub_signFile stub_buildIndex
              three_dirs (start false) "repo/ppc64le" mixed_schedule Hout)
    as [Hkeep _].
  exact Hkeep.
Defined.

Lemma rebuildRepo_sign_failure_witness :
  let s' := (repobuilder.rebuildRepo stub_exec failing_signFile stub_buildIndex
               "repo/x86_64" (start false)).2 in
  repobuilder.Errors (repobuilder.job s')
  = (repobuilder.Errors (repobuilder.job (start false))
     ++ [withMessage (errors_New "notary: access denied")
           (repobuilder.sign_msg "repo/x86_64")])%list
  /\ repobuilder.Output (repobuilder.job s')
     = <[ "repo/x86_64" := "Saving Primary metadata for repo/x86_64" ]>
         (repobuilder.Output (repobuilder.job (start false))).
Proof.
  intros s'. subst s'.
  assert (Hexec : stub_exec (repobuilder.cmd_Args "repo/x86_64")
                    (repobuilder.world (start false))
                  = (("Saving Primary metadata for repo/x86_64", None), 1%nat))
    by (vm_compute; reflexivity).
  destruct (rebuildRepo_sign_failure stub_exec failing_signFile stub_buildIndex
              "repo/x86_64" (start false) _ 1%nat 1%nat
              (errors_New "notary: access denied") eq_refl Hexec eq_refl)
    as [Herr [Hout _]].
  split; [exact Herr | exact Hout].
Defined.

Lemma rebuildRepo_reaches_index_witness :
  let s' := (rebuild_stub "repo/x86_64" (start false)).2 in
  repobuilder.Errors (repobuilder.job s') = []
  /\ repobuilder.calls_of (repobuilder.trace s')
     = [repobuilder.CallCombinedOutput (repobuilder.cmd_Args "repo/x86_64");
        repobuilder.CallSignFile (repobuilder.metaDataFile "repo/x86_64") "asc" false;
        repobuilder.CallBuildIndexPage "repo/x86_64" "repo.example.org"].
Proof.
  intros s'. subst s'.
  assert (Hexec : stub_exec (repobuilder.cmd_Args "repo/x86_64")
                    (repobuilder.world (start false))
                  = (("Saving Primary metadata for repo/x86_64", None), 1%nat))
    by (vm_compute; reflexivity).
  destruct (rebuildRepo_reaches_index stub_exec stub_signFile stub_buildIndex
              "repo/x86_64" (start false) _ 1%nat 1%nat eq_refl Hexec eq_refl)
    as [Herr [_ [Hcalls _]]].
  split; [exact Herr | exact Hcalls].
Defined.

Lemma build_job_Name_unique_witness :
  let new := repobuilder.NewBuildRPMRepo zero_job ("/build", None) stub_parse tt
               (repobuilder.mkDistro "rhel7" "repo.example.org") "3.2.7" in
  exists r1 r2,
    new "x86_64" "default" [] 4%nat = (Some r1, None)
    /\ new "i386" "default" [] 5%nat = (Some r2, None)
    /\ repobuilder.Name (repobuilder.Job_ r1) <> repobuilder.Name (repobuilder.Job_ r2).
Proof.
  intros new. eexists. eexists.
  split; [reflexivity |]. split; [reflexivity |].
  match goal with
  | |- repobuilder.Name (repobuilder.Job_ ?r1) <> repobuilder.Name (repobuilder.Job_ ?r2) =>
      pose proof (build_job_Name_unique zero_job ("/build", None) stub_parse
                    tt tt (repobuilder.mkDistro "rhel7" "repo.example.org")
                    (repobuilder.mkDistro "rhel7" "repo.example.org")
                    "3.2.7" "3.2.7" "x86_64" "i386" "default" "default" [] []
                    4%nat 5%nat r1 r2 eq_refl eq_refl) as Hiff
  end.
  intros Heq. apply Hiff in Heq. discriminate.
Defined.

Lemma injectPackage_result_witness :
  repobuilder.injectPackage stub_link (rpm_job false) "/build/repo" "rhel7" 0%nat
    = (("/build/repo/rhel7/x86_64", None), 1%nat).
Proof.
  apply (injectPackage_result stub_link (rpm_job false) "/build/repo" "rhel7" 0%nat);
    first [discriminate | vm_compute; reflexivity].
Defined.

End MoreBuildInstances.
